(** * minio_file: account-keyed MinIO connections and the command-line tool

    A shallow embedding of [src/minio_file/minio_file.py]: the class
    [minio_file] (credentials read from the process environment, endpoint
    normalisation, construction of the storage client, listing, upload and
    download) and the entry point [main].

    Python strings are [string], [os.environ] is a [gmap string string],
    [sys.argv] a [list string]; instances of the class live in a heap
    indexed by object identity; exceptions are values of type [exn]; every
    function of the module is a computation in a state-and-exception monad
    over the process [world]. *)

From Stdlib Require Import Ascii.
From Stdlib Require String.
From stdpp Require Import base option list gmap strings pretty.

(** ** Python string operations used by the module *)

Module Str.

(** [s.startswith(p)] *)
Fixpoint startswith (s p : string) {struct p} : bool :=
  match p with
  | EmptyString => true
  | String a p' =>
      match s with
      | EmptyString => false
      | String b s' => if Ascii.eqb a b then startswith s' p' else false
      end
  end.

(** Left-to-right scan of [str.replace]: [skip] counts the characters of
    the occurrence found last that are still to be dropped. *)
Fixpoint replace_from (skip : nat) (old new s : string) : string :=
  match s with
  | EmptyString => EmptyString
  | String c s' =>
      match skip with
      | S k => replace_from k old new s'
      | O =>
          if startswith s old
          then new +:+ replace_from (String.length old - 1) old new s'
          else String c (replace_from 0 old new s')
      end
  end.

(** [old] empty: Python puts [new] before every character and at the end. *)
Fixpoint interleave (new s : string) : string :=
  match s with
  | EmptyString => new
  | String c s' => new +:+ String c (interleave new s')
  end.

(** [s.replace(old, new)]: every non-overlapping occurrence, leftmost first. *)
Definition replace (s old new : string) : string :=
  match old with
  | EmptyString => interleave new s
  | String _ _ => replace_from 0 old new s
  end.

(** [old in s] *)
Fixpoint contains (s old : string) : bool :=
  startswith s old ||
  match s with
  | EmptyString => false
  | String _ s' => contains s' old
  end.

(** [s.split(sep)] for a one-character separator. *)
Fixpoint split (sep : ascii) (s : string) : list string :=
  match s with
  | EmptyString => [EmptyString]
  | String c s' =>
      if decide (c = sep) then EmptyString :: split sep s'
      else match split sep s' with
           | h :: t => String c h :: t
           | [] => [String c EmptyString]
           end
  end.

(** [s[n:]] *)
Fixpoint drop (n : nat) (s : string) : string :=
  match n, s with
  | S k, String _ s' => drop k s'
  | _, _ => s
  end.

(** [sep.join(parts)] *)
Fixpoint join (sep : string) (parts : list string) : string :=
  match parts with
  | [] => EmptyString
  | [p] => p
  | p :: rest => p +:+ sep +:+ join sep rest
  end.

End Str.


(** ** pathlib: the text of [Path(s)] on a POSIX system *)

Module Pathlib.

(** [posixpath.splitroot] without the (always empty) drive: exactly two
    leading slashes are kept as the root, one or more than two give [/]. *)
Definition splitroot (p : string) : string * string :=
  match p with
  | String "/" (String "/" (String "/" r)) => ("/", String "/" (String "/" r))
  | String "/" (String "/" r) => ("//", r)
  | String "/" r => ("/", r)
  | _ => (EmptyString, p)
  end.

(** The components kept by the parser: non-empty and different from [.] *)
Definition kept (x : string) : bool :=
  negb (bool_decide (x = EmptyString)) && negb (bool_decide (x = ".")).

(** [str(Path(p))] *)
Definition str_Path (p : string) : string :=
  let '(root, rel) := splitroot p in
  let tail := filter (fun x => Is_true (kept x)) (Str.split "/" rel) in
  match root, tail with
  | EmptyString, [] => "."
  | _, _ => root +:+ Str.join "/" tail
  end.

End Pathlib.


(** ** Values, exceptions and the process world *)

(** The exceptions that can leave the module: the built-in ones raised by
    the interpreter and whatever the storage library raises. *)
Inductive exn : Type :=
| TypeError (msg : string)
| AttributeError (msg : string)
| IndexError (msg : string)
| LibraryError (msg : string).

(** The handle returned by [Minio(...)]: the constructor's arguments and
    the identity of the object. *)
Record client : Type := Client {
  handle : nat;
  host : string;
  access_key : option string;
  secret_key : option string;
  secure : bool
}.

(** An entry yielded by [client.list_objects]. *)
Record Object : Type := Obj {
  object_name : string;
  size : nat;
  last_modified : string;
  etag : string
}.

(** What a call evaluates to, where a caller could expect a listing:
    [None] or a sequence of entries. *)
Inductive pyvalue : Type :=
| PyNone
| PySeq (entries : list Object).

(** The attributes of an instance of class [minio_file].  [None] in
    [bucket_name] is Python's [None] ([getenv] of an unset variable); an
    attribute reads [None] until [__init__] has assigned it. *)
Record minio_file : Type := Instance_ {
  account : string;
  bucket_name : option string;
  client_ : option client
}.

(** What the process does that can be observed from outside, oldest first. *)
Inductive event : Type :=
| Getenv (name : string)
| MinioCall (endpoint : string) (access_key secret_key : option string) (secure : bool)
| ListBuckets (h : nat)
| ListObjects (h : nat) (bucket : option string) (recursive : bool)
| FputObject (h : nat) (bucket : option string) (object_name file_path : string)
| FgetObject (h : nat) (bucket : option string) (object_name file_path : string)
| Print (line : string).

(** A call that goes to the storage server. *)
Definition is_remote (ev : event) : bool :=
  match ev with
  | ListBuckets _ | ListObjects _ _ _ | FputObject _ _ _ _ | FgetObject _ _ _ _ => true
  | _ => false
  end.

Definition is_getenv (ev : event) : bool :=
  match ev with Getenv _ => true | _ => false end.

Definition is_print (ev : event) : bool :=
  match ev with Print _ => true | _ => false end.

(** A call that writes to the server or enumerates its buckets. *)
Definition is_upload_or_buckets (ev : event) : bool :=
  match ev with FputObject _ _ _ _ | ListBuckets _ => true | _ => false end.

Record world : Type := World {
  environ : gmap string string;    (* os.environ *)
  argv : list string;              (* sys.argv *)
  is_file : string → bool;         (* regular files of the file system *)
  heap : gmap nat minio_file;      (* instances by identity *)
  handles : nat;                   (* client handles created so far *)
  trace : list event
}.

Definition emit (e : event) (w : world) : world :=
  World (environ w) (argv w) (is_file w) (heap w) (handles w) (trace w ++ [e]).

Definition store (self : nat) (o : minio_file) (w : world) : world :=
  World (environ w) (argv w) (is_file w) (<[self := o]> (heap w)) (handles w) (trace w).

(** The world after [evs] more events. *)
Definition seen (w : world) (evs : list event) : world :=
  World (environ w) (argv w) (is_file w) (heap w) (handles w) (trace w ++ evs).

(** The same process started with other arguments. *)
Definition with_argv (args : list string) (w : world) : world :=
  World (environ w) args (is_file w) (heap w) (handles w) (trace w).

(** The same process with another environment. *)
Definition with_environ (env : gmap string string) (w : world) : world :=
  World env (argv w) (is_file w) (heap w) (handles w) (trace w).

Definition bump (w : world) : world :=
  World (environ w) (argv w) (is_file w) (heap w) (S (handles w)) (trace w).

(** ** The monad of the embedding: world passing with exceptions *)

Definition M (A : Type) : Type := world → (exn + A) * world.

Definition ret {A} (a : A) : M A := fun w => (inr a, w).
Definition raise {A} (e : exn) : M A := fun w => (inl e, w).
Definition bind {A B} (m : M A) (k : A → M B) : M B :=
  fun w => match m w with
           | (inl e, w') => (inl e, w')
           | (inr a, w') => k a w'
           end.

Declare Scope py_scope.
Delimit Scope py_scope with py.
Notation "x <- m ;; k" := (bind m (fun x => k))
  (at level 100, m at next level, right associativity) : py_scope.
Notation "m ;;; k" := (bind m (fun _ => k))
  (at level 100, right associativity) : py_scope.
Local Open Scope py_scope.

Definition act (e : event) : M unit := fun w => (inr tt, emit e w).
Definition read {A} (f : world → A) : M A := fun w => (inr (f w), w).

(** Run [body] once per element, in order, stopping at the first exception. *)
Fixpoint for_each {A} (l : list A) (body : A → M unit) : M unit :=
  match l with
  | [] => ret tt
  | x :: rest => body x ;;; for_each rest body
  end.

(** [os.getenv(name)] *)
Definition getenv (name : string) : M (option string) :=
  act (Getenv name) ;;; read (fun w => environ w !! name).

(** [print(line)] *)
Definition print (line : string) : M unit := act (Print line).

(** Attribute access on an instance. *)
Definition load (self : nat) : M minio_file :=
  fun w => match heap w !! self with
           | Some o => (inr o, w)
           | None => (inl (AttributeError "no such instance"), w)
           end.

Definition the_client (self : nat) : M client :=
  o <- load self ;;
  match client_ o with
  | Some c => ret c
  | None => raise (AttributeError "'minio_file' object has no attribute 'client'")
  end.

(** ** The storage library (package [minio]), outside the repository *)

Class MinioLibrary : Type := {
  (** what [Minio(endpoint, access_key, secret_key, secure)] raises on
      its arguments, if anything (the constructor opens no connection) *)
  Minio_rejects : string → option string → option string → bool → option exn;
  list_buckets_reply : client → exn + list string;
  (** the listing taken whole: the complete finite sequence the
      iterator yields, or the exception it raises before its first
      object (an iterator that fails after some objects is not covered) *)
  list_objects_reply : client → option string → bool → exn + list Object;
  fput_object_reply : client → option string → string → string → option exn;
  fget_object_reply : client → option string → string → string → option exn
}.

Definition reply {A} (r : exn + A) : M A :=
  match r with inl e => raise e | inr a => ret a end.

Definition check (r : option exn) : M unit :=
  match r with Some e => raise e | None => ret tt end.

(** ** The module [minio_file.py] *)

Section MinioFile.

Context `{lib : MinioLibrary}.

(** [Minio(endpoint, access_key=..., secret_key=..., secure=...)]: local
    object creation, after the library has validated the arguments. *)
Definition Minio (endpoint : string) (ak sk : option string) (sec : bool) : M client :=
  act (MinioCall endpoint ak sk sec) ;;;
  check (Minio_rejects endpoint ak sk sec) ;;;
  h <- read handles ;;
  (fun w => (inr tt, bump w)) ;;;
  ret (Client h endpoint ak sk sec).

(** A method of [str] called on a value that may be [None]. *)
Definition str_method {A} (name : string) (v : option string) (f : string → A) : M A :=
  match v with
  | Some s => ret (f s)
  | None => raise (AttributeError ("'NoneType' object has no attribute '" +:+ name +:+ "'"))
  end.

(** The dictionary built by [_get_credentials]: four fixed keys. *)
Record credentials : Type := Credentials {
  cred_bucket_name : option string;
  cred_access_key : option string;
  cred_secret_key : option string;
  cred_endpoint : option string
}.

Definition env_name (account field : string) : string :=
  "MINIO_" +:+ account +:+ "_" +:+ field.

Definition _get_credentials (self : nat) : M credentials :=
  o <- load self ;;
  b <- getenv (env_name (account o) "BUCKET") ;;
  a <- getenv (env_name (account o) "ACCESS_KEY") ;;
  s <- getenv (env_name (account o) "SECRET_KEY") ;;
  e <- getenv (env_name (account o) "ENDPOINT") ;;
  ret (Credentials b a s e).

Definition set_bucket_name (self : nat) (b : option string) : M unit :=
  o <- load self ;;
  (fun w => (inr tt, store self (Instance_ (account o) b (client_ o)) w)).

Definition set_client (self : nat) (c : client) : M unit :=
  o <- load self ;;
  (fun w => (inr tt, store self (Instance_ (account o) (bucket_name o) (Some c)) w)).

Definition _get_client (self : nat) : M unit :=
  cred <- _get_credentials self ;;
  set_bucket_name self (cred_bucket_name cred) ;;;
  stripped <- str_method "replace" (cred_endpoint cred)
                (fun e => Str.replace e "http://" EmptyString) ;;
  let endpoint_url := Str.replace stripped "https://" EmptyString in
  sec <- str_method "startswith" (cred_endpoint cred)
           (fun e => Str.startswith e "https://") ;;
  c <- Minio endpoint_url (cred_access_key cred) (cred_secret_key cred) sec ;;
  set_client self c.

Definition accounts : list string := ["WO"; "HO"; "ML"; "VIZ"].

(** The last part of the names read by [_get_credentials]. *)
Definition fields : list string := ["BUCKET"; "ACCESS_KEY"; "SECRET_KEY"; "ENDPOINT"].

(** [raise] applied to a string: the interpreter raises [TypeError]
    instead, and the text built for the message is lost. *)
Definition raise_str {A} (text : string) : M A :=
  raise (TypeError "exceptions must derive from BaseException").

Definition __init__ (self : nat) (account : string) : M unit :=
  if bool_decide (account ∈ accounts) then
    (fun w => (inr tt, store self (Instance_ account None None) w)) ;;;
    _get_client self
  else raise_str ("Incorrect account " +:+ account).

(** [minio_file(account)]: a fresh identity, then [__init__]. *)
Definition new_minio_file (account : string) : M nat :=
  self <- read (fun w => fresh (dom (heap w))) ;;
  __init__ self account ;;;
  ret self.

Definition get_buckets (self : nat) : M (list string) :=
  c <- the_client self ;;
  act (ListBuckets (handle c)) ;;;
  reply (list_buckets_reply c).

Definition upload_file (self : nat) (file_name full_name : string) : M unit :=
  c <- the_client self ;;
  o <- load self ;;
  act (FputObject (handle c) (bucket_name o) full_name file_name) ;;;
  check (fput_object_reply c (bucket_name o) full_name file_name).

(** The line printed for one object: [f"{obj.object_name} ({obj.size} bytes)"] *)
Definition object_line (obj : Object) : string :=
  object_name obj +:+ " (" +:+ pretty (size obj) +:+ " bytes)".

(** No [return]: the call evaluates to [None]. *)
Definition get_file_list (self : nat) : M pyvalue :=
  c <- the_client self ;;
  o <- load self ;;
  act (ListObjects (handle c) (bucket_name o) true) ;;;
  objects <- reply (list_objects_reply c (bucket_name o) true) ;;
  for_each objects (fun obj => print (object_line obj)) ;;;
  ret PyNone.

Definition download_file (self : nat) (file_name full_name : string) : M unit :=
  c <- the_client self ;;
  o <- load self ;;
  act (FgetObject (handle c) (bucket_name o) full_name file_name) ;;;
  check (fget_object_reply c (bucket_name o) full_name file_name).

(** [main()].  [Path(ho_file)] is carried by its text [str(ho_obj)];
    [ho_obj.is_file()] asks the file system about that text. *)
Definition main : M unit :=
  ho <- new_minio_file "HO" ;;
  args <- read argv ;;
  if bool_decide (length args = 3) then
    match args !! 1 with
    | None => raise (IndexError "list index out of range")
    | Some ho_file =>
        let ho_obj := Pathlib.str_Path ho_file in
        exists_ <- read (fun w => is_file w ho_obj) ;;
        if exists_ : bool then print ("Skipping existing file: " +:+ ho_obj)
        else download_file ho ho_file ho_obj
    end
  else
    print (String "010" "Listing objects in bucket:") ;;;
    get_file_list ho ;;;
    ret tt.

(** *** The outcome of construction, in closed form *)

(** The four reads of [_get_credentials], in the order of the source. *)
Definition reads (account : string) : list event :=
  [Getenv ("MINIO_" +:+ account +:+ "_BUCKET");
   Getenv ("MINIO_" +:+ account +:+ "_ACCESS_KEY");
   Getenv ("MINIO_" +:+ account +:+ "_SECRET_KEY");
   Getenv ("MINIO_" +:+ account +:+ "_ENDPOINT")].

(** The world in which [evs] have been observed and instance [self] holds [o]. *)
Definition after (w : world) (self : nat) (o : minio_file) (used : nat)
    (evs : list event) : world :=
  World (environ w) (argv w) (is_file w) (<[self := o]> (heap w))
        (handles w + used) (trace w ++ evs).

End MinioFile.

(** ** The specification's reading of endpoint normalisation *)

Module Spec.

(** The endpoint with a leading [http://] or [https://] removed and
    nothing else touched. *)
Definition strip_scheme (e : string) : string :=
  if Str.startswith e "http://" then Str.drop 7 e
  else if Str.startswith e "https://" then Str.drop 8 e
  else e.

(** True exactly when the endpoint begins with [https://]. *)
Definition is_secure (e : string) : bool := Str.startswith e "https://".

End Spec.

(** ** The resolver called with explicit credentials *)

Module Functional.





End Functional.

(** ** A concrete library and concrete worlds, to run the module on *)

Module Demo.

Definition listing : list Object :=
  [Obj "a.txt" 3 "2025-01-01" "abc"; Obj "dir/b.csv" 120 "2025-01-02" "def"].

(** Accepts every non-empty host; serves [listing] from bucket
    [test-bucket] and nothing from any other bucket. *)
#[export] Instance library : MinioLibrary := {|
  Minio_rejects h _ _ _ :=
    if bool_decide (h = EmptyString) then Some (LibraryError "invalid hostname") else None;
  list_buckets_reply _ := inr ["test-bucket"];
  list_objects_reply _ b _ :=
    match b with
    | Some name => inr (if bool_decide (name = "test-bucket") then listing else [])
    | None => inl (LibraryError "bucket name must be a string")
    end;
  fput_object_reply _ _ _ _ := None;
  fget_object_reply _ _ _ _ := None
|}.

Definition process (env : list (string * string)) (args : list string)
    (on_disk : list string) : world :=
  World (list_to_map env) args (fun p => bool_decide (p ∈ on_disk)) ∅ 0 [].

Definition ho_env : list (string * string) :=
  [("MINIO_HO_ENDPOINT", "https://minio.example.com");
   ("MINIO_HO_ACCESS_KEY", "test-key");
   ("MINIO_HO_SECRET_KEY", "test-secret");
   ("MINIO_HO_BUCKET", "test-bucket")].

(** As [ho_env], without the bucket variable. *)
Definition ho_env_no_bucket : list (string * string) :=
  [("MINIO_HO_ENDPOINT", "https://minio.example.com");
   ("MINIO_HO_ACCESS_KEY", "test-key");
   ("MINIO_HO_SECRET_KEY", "test-secret")].

(** As [ho_env], with the bucket variable set to the empty string. *)
Definition ho_env_empty_bucket : list (string * string) :=
  [("MINIO_HO_ENDPOINT", "https://minio.example.com");
   ("MINIO_HO_ACCESS_KEY", "test-key");
   ("MINIO_HO_SECRET_KEY", "test-secret");
   ("MINIO_HO_BUCKET", EmptyString)].

(** An endpoint in which a scheme marker occurs again after the leading one. *)
Definition nested_endpoint : string := "https://minio.example.com/http://mirror".

Definition ho_env_nested : list (string * string) :=
  [("MINIO_HO_ENDPOINT", nested_endpoint);
   ("MINIO_HO_ACCESS_KEY", "test-key");
   ("MINIO_HO_SECRET_KEY", "test-secret");
   ("MINIO_HO_BUCKET", "test-bucket")].

(** The tool started without arguments, account HO fully configured. *)
Definition ho_world : world := process ho_env ["minio-file"] [].

(** The tool asked to fetch [./a.txt], which is not on disk. *)
Definition fetch_world : world :=
  process ho_env ["minio-file"; "./a.txt"; "ignored.txt"] [].

(** The instance and the client that construction leaves in [ho_world]. *)
Definition ho_client : client :=
  Client 0 "minio.example.com" (Some "test-key") (Some "test-secret") true.

Definition ho_instance : minio_file :=
  Instance_ "HO" (Some "test-bucket") (Some ho_client).

(** [w] once [minio_file("HO")] has returned instance 0 in it. *)
Definition constructed (w : world) : world :=
  World (environ w) (argv w) (is_file w) (<[0 := ho_instance]> (heap w)) 1
    (trace w ++
     [Getenv "MINIO_HO_BUCKET"; Getenv "MINIO_HO_ACCESS_KEY";
      Getenv "MINIO_HO_SECRET_KEY"; Getenv "MINIO_HO_ENDPOINT";
      MinioCall "minio.example.com" (Some "test-key") (Some "test-secret") true]).

(** The second instance built in the same process, and the world then. *)
Definition second_instance : minio_file :=
  Instance_ "HO" (Some "test-bucket")
    (Some (Client 1 "minio.example.com" (Some "test-key") (Some "test-secret") true)).

Definition constructed_twice (w : world) : world :=
  World (environ w) (argv w) (is_file w)
    (<[1 := second_instance]> (heap (constructed w))) 2
    (trace (constructed w) ++
     [Getenv "MINIO_HO_BUCKET"; Getenv "MINIO_HO_ACCESS_KEY";
      Getenv "MINIO_HO_SECRET_KEY"; Getenv "MINIO_HO_ENDPOINT";
      MinioCall "minio.example.com" (Some "test-key") (Some "test-secret") true]).

(** The tool asked to fetch [a.txt], which is on disk already. *)
Definition skip_world : world :=
  process ho_env ["minio-file"; "a.txt"; "ignored.txt"] ["a.txt"].

(** As [library], and like the package [minio] the constructor refuses
    an endpoint that carries a path. *)
Definition path_checking_library : MinioLibrary := {|
  Minio_rejects h _ _ _ :=
    if bool_decide (h = EmptyString) then Some (LibraryError "invalid hostname")
    else if Str.contains h "/" then Some (LibraryError "path in endpoint is not allowed")
    else None;
  list_buckets_reply := @list_buckets_reply library;
  list_objects_reply := @list_objects_reply library;
  fput_object_reply := @fput_object_reply library;
  fget_object_reply := @fget_object_reply library
|}.

(** Account HO with all four variables set, the endpoint being
    [nested_endpoint]. *)
Definition nested_world : world := process ho_env_nested ["minio-file"] [].

(** [ho_world] with a variable of account WO set as well. *)
Definition ho_world_extra : world :=
  process (("MINIO_WO_BUCKET", "wo-bucket") :: ho_env) ["minio-file"] [].

(** Nothing configured; two positional arguments. *)
Definition bare_world : world := process [] ["minio-file"; "a.txt"; "b.txt"] [].

(** The endpoint is a scheme and nothing else: the host is empty and
    [library] refuses it. *)
Definition schemeless_world : world :=
  process [("MINIO_HO_ENDPOINT", "https://"); ("MINIO_HO_BUCKET", "test-bucket")]
    ["minio-file"] [].

(** One positional argument. *)
Definition one_argument_world : world := process ho_env ["minio-file"; "a.txt"] [].

End Demo.

(** * Properties *)

(** ** Strings *)

Section StringFacts.

Lemma app_cons (a : ascii) (p s : string) : String a p +:+ s = String a (p +:+ s).
Proof. reflexivity. Qed.

Lemma app_nil (s : string) : EmptyString +:+ s = s.
Proof. reflexivity. Qed.

Lemma startswith_app (p s : string) : Str.startswith (p +:+ s) p = true.
Proof.
  induction p as [|a p IH]; [done|].
  rewrite app_cons. cbn [Str.startswith].
  by rewrite Ascii.eqb_refl.
Qed.

Lemma replace_from_absent (old new s : string) :
  Str.contains s old = false → Str.replace_from 0 old new s = s.
Proof.
  induction s as [|c s IH]; [done|].
  cbn [Str.contains]. intros H.
  apply orb_false_iff in H as [Hhead Htail].
  cbn [Str.replace_from]. rewrite Hhead. f_equal. auto.
Qed.

Lemma replace_absent (s old new : string) :
  Str.contains s old = false → Str.replace s old new = s.
Proof.
  destruct old as [|a old]; [by destruct s|].
  apply replace_from_absent.
Qed.

Lemma join_split (s : string) : Str.join "/" (Str.split "/" s) = s.
Proof.
  induction s as [|c s IH]; [done|].
  cbn [Str.split]. case_decide as Hc.
  - subst c. destruct (Str.split "/" s) as [|h t] eqn:E.
    + by destruct s; [|cbn in E; case_decide; [|destruct (Str.split _ _)]].
    + cbn [Str.join]. rewrite <-IH. by destruct t.
  - destruct (Str.split "/" s) as [|h t] eqn:E.
    + exfalso. destruct s; [done|]. cbn in E. case_decide; [done|].
      by destruct (Str.split _ _).
    + rewrite <-IH. destruct t as [|h' t]; [done|]. done.
Qed.

Lemma startswith_drop (s p : string) :
  Str.startswith s p = true → s = p +:+ Str.drop (String.length p) s.
Proof.
  revert s. induction p as [|a p IH]; intros s H; [by destruct s|].
  destruct s as [|b s]; [done|]. cbn [Str.startswith] in H.
  destruct (Ascii.eqb_spec a b) as [->|]; [|done].
  rewrite app_cons. cbn [String.length Str.drop]. f_equal. auto.
Qed.

Lemma replace_http_prefix (rest : string) :
  Str.contains rest "http://" = false →
  Str.replace ("http://" +:+ rest) "http://" EmptyString = rest.
Proof.
  intros H. unfold Str.replace. rewrite !app_cons, app_nil. cbn.
  by apply replace_from_absent.
Qed.

Lemma replace_https_prefix (rest : string) :
  Str.contains rest "https://" = false →
  Str.replace ("https://" +:+ rest) "https://" EmptyString = rest.
Proof.
  intros H. unfold Str.replace. rewrite !app_cons, app_nil. cbn.
  by apply replace_from_absent.
Qed.

Lemma replace_http_in_https (rest : string) :
  Str.contains rest "http://" = false →
  Str.replace ("https://" +:+ rest) "http://" EmptyString = "https://" +:+ rest.
Proof.
  intros H. unfold Str.replace. rewrite !app_cons, app_nil. cbn.
  do 8 f_equal. by apply replace_from_absent.
Qed.

(** Both replacements of [_get_client], on an endpoint whose only
    scheme marker is the leading one. *)
Lemma replace_twice_strip (e : string) :
  Str.contains (Spec.strip_scheme e) "http://" = false →
  Str.contains (Spec.strip_scheme e) "https://" = false →
  Str.replace (Str.replace e "http://" EmptyString) "https://" EmptyString
  = Spec.strip_scheme e.
Proof.
  unfold Spec.strip_scheme.
  destruct (Str.startswith e "http://") eqn:Hhttp.
  - apply startswith_drop in Hhttp. cbn [String.length] in Hhttp.
    intros H1 H2. rewrite Hhttp at 1.
    rewrite replace_http_prefix by done. by apply replace_absent.
  - destruct (Str.startswith e "https://") eqn:Hhttps.
    + apply startswith_drop in Hhttps. cbn [String.length] in Hhttps.
      intros H1 H2. rewrite Hhttps at 1.
      rewrite replace_http_in_https by done.
      by apply replace_https_prefix.
    + intros H1 H2. rewrite (replace_absent e "http://") by done.
      by apply replace_absent.
Qed.

Lemma splitroot_relative (c : ascii) (r : string) :
  c ≠ "/"%char → Pathlib.splitroot (String c r) = (EmptyString, String c r).
Proof.
  intros Hc. destruct c as [[] [] [] [] [] [] [] []]; try reflexivity.
  by destruct Hc.
Qed.

Lemma filter_all {A} (P : A → Prop) `{!∀ x, Decision (P x)} (l : list A) :
  Forall P l → filter P l = l.
Proof.
  induction 1 as [|x l Hx _ IH]; [done|].
  by rewrite filter_cons_True, IH.
Qed.

(** A relative path all of whose components are kept is its own text. *)
Lemma str_Path_normal (p : string) :
  Forall (λ x, Is_true (Pathlib.kept x)) (Str.split "/" p) →
  Pathlib.str_Path p = p.
Proof.
  intros Hall. destruct p as [|c r].
  { by apply Forall_cons_1 in Hall as [? _]. }
  destruct (decide (c = "/"%char)) as [->|Hc].
  { cbn [Str.split] in Hall. rewrite decide_True in Hall by done.
    by apply Forall_cons_1 in Hall as [? _]. }
  unfold Pathlib.str_Path. rewrite (splitroot_relative _ _ Hc).
  rewrite (filter_all _ _ Hall).
  destruct (Str.split "/" (String c r)) as [|h t] eqn:E.
  { by apply (f_equal (Str.join "/")) in E; rewrite join_split in E. }
  by rewrite <-E, join_split.
Qed.

End StringFacts.

(** ** The resolver called with explicit credentials *)

Section ExplicitMode.

Import Functional.



End ExplicitMode.

(** ** Construction of an instance *)

Section Construction.

Context `{lib : MinioLibrary}.

(** Unfold the monad and the primitive actions, keeping maps and
    strings folded. *)
Ltac run :=
  cbv beta iota zeta delta
    [bind ret raise act read emit store bump load check reply getenv print
     the_client str_method env_name after reads];
  cbn [environ argv is_file heap handles trace
       cred_bucket_name cred_access_key cred_secret_key cred_endpoint
       account bucket_name client_ handle host access_key secret_key secure].

(** An unknown account: rejected before anything else happens. *)
Lemma new_minio_file_unknown (account : string) (w : world) :
  account ∉ accounts →
  new_minio_file account w
  = (inl (TypeError "exceptions must derive from BaseException"), w).
Proof.
  intros Hacc. unfold new_minio_file, __init__, raise_str. run.
  by rewrite bool_decide_eq_false_2.
Qed.

Lemma _get_credentials_run (self : nat) (o : minio_file) (w : world) :
  heap w !! self = Some o →
  _get_credentials self w
  = (inr (Credentials
            (environ w !! ("MINIO_" +:+ account o +:+ "_BUCKET"))
            (environ w !! ("MINIO_" +:+ account o +:+ "_ACCESS_KEY"))
            (environ w !! ("MINIO_" +:+ account o +:+ "_SECRET_KEY"))
            (environ w !! ("MINIO_" +:+ account o +:+ "_ENDPOINT"))),
     World (environ w) (argv w) (is_file w) (heap w) (handles w)
           (trace w ++ reads (account o))).
Proof.
  intros Ho. unfold _get_credentials. run. rewrite Ho.
  by rewrite <-!app_assoc.
Qed.

(** A known account: the run of [__init__] as a function of the
    environment and of the library's verdict on the arguments. *)
Lemma new_minio_file_known (account : string) (w : world) :
  account ∈ accounts →
  let self := fresh (dom (heap w)) in
  let b := environ w !! ("MINIO_" +:+ account +:+ "_BUCKET") in
  let a := environ w !! ("MINIO_" +:+ account +:+ "_ACCESS_KEY") in
  let s := environ w !! ("MINIO_" +:+ account +:+ "_SECRET_KEY") in
  new_minio_file account w =
    match environ w !! ("MINIO_" +:+ account +:+ "_ENDPOINT") with
    | None =>
        (inl (AttributeError "'NoneType' object has no attribute 'replace'"),
         after w self (Instance_ account b None) 0 (reads account))
    | Some e =>
        let url := Str.replace (Str.replace e "http://" EmptyString)
                     "https://" EmptyString in
        let sec := Str.startswith e "https://" in
        match Minio_rejects url a s sec with
        | Some ex =>
            (inl ex, after w self (Instance_ account b None) 0
                       (reads account ++ [MinioCall url a s sec]))
        | None =>
            (inr self,
             after w self
               (Instance_ account b (Some (Client (handles w) url a s sec))) 1
               (reads account ++ [MinioCall url a s sec]))
        end
    end.
Proof.
  intros Hacc self b a s.
  unfold new_minio_file, __init__. rewrite bool_decide_eq_true_2 by done.
  unfold _get_client, set_bucket_name, set_client, Minio.
  destruct w as [env args isf hp n tr]. subst self b a s. run.
  rewrite (_get_credentials_run _ (Instance_ account None None))
    by (cbn [heap]; apply lookup_insert_eq).
  run. rewrite !lookup_insert_eq. run.
  destruct (env !! ("MINIO_" +:+ account +:+ "_ENDPOINT")) as [e|].
  - run. destruct (Minio_rejects _ _ _ _) as [ex|].
    + by rewrite !insert_insert_eq, <-!app_assoc, Nat.add_0_r.
    + run. rewrite !lookup_insert_eq. run.
      by rewrite !insert_insert_eq, <-!app_assoc, Nat.add_1_r.
  - by rewrite !insert_insert_eq, Nat.add_0_r.
Qed.

(** Construction leaves the environment, the arguments and the file
    system as they were. *)
Lemma new_minio_file_frame (account : string) (w : world) :
  let w' := (new_minio_file account w).2 in
  environ w' = environ w ∧ argv w' = argv w ∧ is_file w' = is_file w.
Proof.
  destruct (decide (account ∈ accounts)) as [Hin|Hout].
  - rewrite (new_minio_file_known _ _ Hin).
    destruct (environ w !! _) as [e|]; [|done].
    cbv zeta. by destruct (Minio_rejects _ _ _ _).
  - by rewrite (new_minio_file_unknown _ _ Hout).
Qed.

(** What a successful construction leaves behind. *)
Lemma new_minio_file_ok (account : string) (w w' : world) (self : nat) :
  new_minio_file account w = (inr self, w') →
  ∃ e : string,
    environ w !! ("MINIO_" +:+ account +:+ "_ENDPOINT") = Some e ∧
    let url := Str.replace (Str.replace e "http://" EmptyString)
                 "https://" EmptyString in
    let c := Client (handles w) url
               (environ w !! ("MINIO_" +:+ account +:+ "_ACCESS_KEY"))
               (environ w !! ("MINIO_" +:+ account +:+ "_SECRET_KEY"))
               (Str.startswith e "https://") in
    let o := Instance_ account
               (environ w !! ("MINIO_" +:+ account +:+ "_BUCKET")) (Some c) in
    account ∈ accounts ∧
    self = fresh (dom (heap w)) ∧
    w' = after w self o 1
           (reads account ++
            [MinioCall url (access_key c) (secret_key c) (secure c)]).
Proof.
  destruct (decide (account ∈ accounts)) as [Hin|Hout].
  - rewrite (new_minio_file_known _ _ Hin).
    destruct (environ w !! ("MINIO_" +:+ account +:+ "_ENDPOINT")) as [e|];
      [|done].
    cbv zeta. destruct (Minio_rejects _ _ _ _); [done|].
    intros [= <- <-]. by exists e.
  - by rewrite (new_minio_file_unknown _ _ Hout).
Qed.

(** Whatever the other three variables hold, set or not, construction
    goes through as soon as the endpoint variable is set and the
    library accepts the arguments: nothing checks the values read. *)
Lemma unset_variables_pass_through (account : string) (w : world) (e : string) :
  account ∈ accounts →
  environ w !! ("MINIO_" +:+ account +:+ "_ENDPOINT") = Some e →
  Minio_rejects
    (Str.replace (Str.replace e "http://" EmptyString) "https://" EmptyString)
    (environ w !! ("MINIO_" +:+ account +:+ "_ACCESS_KEY"))
    (environ w !! ("MINIO_" +:+ account +:+ "_SECRET_KEY"))
    (Str.startswith e "https://") = None →
  ∃ w', new_minio_file account w = (inr (fresh (dom (heap w))), w') ∧
        bucket_name <$> heap w' !! fresh (dom (heap w))
        = Some (environ w !! ("MINIO_" +:+ account +:+ "_BUCKET")).
Proof.
  intros Hin He Hok. rewrite (new_minio_file_known _ _ Hin), He. cbv zeta.
  rewrite Hok. eexists. split; [done|].
  unfold after. cbn [heap]. by rewrite lookup_insert_eq.
Qed.

(** C3. For every account tag outside the known set, construction is
    rejected whatever the environment holds, and the world is left
    untouched: no environment variable has been read.  The exception
    that leaves [__init__] is the interpreter's [TypeError] for
    [raise] applied to a string, not an error about the account. *)
Theorem C3_unknown_account_rejected (account : string) (w : world) :
  account ∉ accounts →
  new_minio_file account w
  = (inl (TypeError "exceptions must derive from BaseException"), w)
  ∧ trace (new_minio_file account w).2 = trace w.
Proof.
  intros Hout. by rewrite (new_minio_file_unknown _ _ Hout).
Qed.

(** C5 (as amended). For every account tag of the known set, when the
    four variables MINIO_<tag>_BUCKET, _ACCESS_KEY, _SECRET_KEY and
    _ENDPOINT are set, construction reads exactly these four
    variables, in this order, and calls the client constructor once
    with the values read.  If the constructor accepts them, an
    instance is returned whose [bucket_name] is the value of the BUCKET
    variable; if the constructor raises, that exception is the outcome
    and no instance is returned. *)
Theorem C5_named_account_resolution_or_refusal (account : string) (w : world)
    (b a s e : string) :
  account ∈ accounts →
  environ w !! ("MINIO_" +:+ account +:+ "_BUCKET") = Some b →
  environ w !! ("MINIO_" +:+ account +:+ "_ACCESS_KEY") = Some a →
  environ w !! ("MINIO_" +:+ account +:+ "_SECRET_KEY") = Some s →
  environ w !! ("MINIO_" +:+ account +:+ "_ENDPOINT") = Some e →
  let url := Str.replace (Str.replace e "http://" EmptyString)
               "https://" EmptyString in
  let sec := Str.startswith e "https://" in
  trace (new_minio_file account w).2
  = trace w ++
    [Getenv ("MINIO_" +:+ account +:+ "_BUCKET");
     Getenv ("MINIO_" +:+ account +:+ "_ACCESS_KEY");
     Getenv ("MINIO_" +:+ account +:+ "_SECRET_KEY");
     Getenv ("MINIO_" +:+ account +:+ "_ENDPOINT");
     MinioCall url (Some a) (Some s) sec] ∧
  (Minio_rejects url (Some a) (Some s) sec = None →
   ∃ (self : nat) (w' : world),
     new_minio_file account w = (inr self, w') ∧
     heap w' !! self
     = Some (Instance_ account (Some b)
               (Some (Client (handles w) url (Some a) (Some s) sec)))) ∧
  (∀ ex, Minio_rejects url (Some a) (Some s) sec = Some ex →
         (new_minio_file account w).1 = inl ex).
Proof.
  intros Hin Hb Ha Hs He url sec.
  rewrite (new_minio_file_known _ _ Hin), He, Hb, Ha, Hs. cbv zeta.
  fold url sec. destruct (Minio_rejects url (Some a) (Some s) sec) as [ex'|].
  - split; [done|]. split; [done|]. by intros ex [= ->].
  - split; [done|]. split; [|done]. intros _. eexists _, _. split; [done|].
    apply lookup_insert_eq.
Qed.

(** C7. Two constructions with the same account in worlds that agree
    on the environment end alike: both raise the same exception, or
    both return instances with equal [bucket_name] and clients with
    equal secure flag (the clients themselves may be different
    objects). *)
Theorem C7_same_inputs_same_connection (account : string) (w1 w2 : world) :
  environ w1 = environ w2 →
  match new_minio_file account w1, new_minio_file account w2 with
  | (inr s1, w1'), (inr s2, w2') =>
      ∃ o1 o2 c1 c2,
        heap w1' !! s1 = Some o1 ∧ heap w2' !! s2 = Some o2 ∧
        client_ o1 = Some c1 ∧ client_ o2 = Some c2 ∧
        bucket_name o1 = bucket_name o2 ∧ secure c1 = secure c2
  | (inl e1, _), (inl e2, _) => e1 = e2
  | _, _ => False
  end.
Proof.
  intros Henv.
  destruct (decide (account ∈ accounts)) as [Hin|Hout].
  - rewrite !(new_minio_file_known _ _ Hin), Henv.
    destruct (environ w2 !! ("MINIO_" +:+ account +:+ "_ENDPOINT")) as [e|];
      [|done].
    cbv zeta. destruct (Minio_rejects _ _ _ _); [done|].
    eexists _, _, _, _. unfold after; cbn [heap].
    rewrite !lookup_insert_eq. done.
  - by rewrite !(new_minio_file_unknown _ _ Hout).
Qed.

(** C4 (as amended). For every endpoint string read for a known
    account, the host handed to the client constructor is the string
    with every occurrence of [http://] removed and then every
    occurrence of [https://] removed; the secure flag is true exactly
    when the untouched string begins with [https://]; and when the
    string, after its leading scheme prefix if it has one, contains
    neither marker, the host is the string with just that leading
    prefix removed. *)
Theorem C4_endpoint_normalisation (account : string) (w : world) (e : string) :
  account ∈ accounts →
  environ w !! ("MINIO_" +:+ account +:+ "_ENDPOINT") = Some e →
  ∃ (url : string) (ak sk : option string) (sec : bool),
    trace (new_minio_file account w).2
    = trace w ++ reads account ++ [MinioCall url ak sk sec] ∧
    url = Str.replace (Str.replace e "http://" EmptyString)
            "https://" EmptyString ∧
    sec = Spec.is_secure e ∧
    (Str.contains (Spec.strip_scheme e) "http://" = false →
     Str.contains (Spec.strip_scheme e) "https://" = false →
     url = Spec.strip_scheme e).
Proof.
  intros Hin He. rewrite (new_minio_file_known _ _ Hin), He. cbv zeta.
  eexists _, _, _, _. split.
  { by destruct (Minio_rejects _ _ _ _). }
  split; [done|]. split; [done|]. apply replace_twice_strip.
Qed.

End Construction.

(** ** Operations on an instance, and the entry point *)

Section Operations.

Context `{lib : MinioLibrary}.

Ltac run :=
  cbv beta iota zeta delta
    [bind ret raise act read emit store bump load check reply getenv print
     the_client str_method env_name after reads seen];
  cbn [environ argv is_file heap handles trace
       account bucket_name client_ handle host access_key secret_key secure].

Lemma seen_nil (w : world) : seen w [] = w.
Proof. destruct w. unfold seen. cbn. by rewrite app_nil_r. Qed.

Lemma seen_seen (w : world) (evs evs' : list event) :
  seen (seen w evs) evs' = seen w (evs ++ evs').
Proof. unfold seen. cbn. by rewrite app_assoc. Qed.

Lemma for_each_print (objs : list Object) (w : world) :
  for_each objs (λ obj, print (object_line obj)) w
  = (inr tt, seen w (map (λ obj, Print (object_line obj)) objs)).
Proof.
  revert w. induction objs as [|obj objs IH]; intros w.
  - by rewrite seen_nil.
  - cbn [for_each map]. unfold bind at 1. unfold print at 1, act.
    rewrite IH. unfold emit, seen. cbn. by rewrite <-app_assoc.
Qed.

Lemma get_file_list_run (self : nat) (o : minio_file) (c : client) (w : world) :
  heap w !! self = Some o →
  client_ o = Some c →
  get_file_list self w =
    match list_objects_reply c (bucket_name o) true with
    | inl ex => (inl ex, seen w [ListObjects (handle c) (bucket_name o) true])
    | inr objs =>
        (inr PyNone,
         seen w (ListObjects (handle c) (bucket_name o) true
                 :: map (λ obj, Print (object_line obj)) objs))
    end.
Proof.
  intros Ho Hc. unfold get_file_list. run. rewrite Ho, Hc. run. rewrite Ho.
  destruct (list_objects_reply c (bucket_name o) true) as [ex|objs]; [done|].
  rewrite for_each_print. run. by rewrite <-app_assoc.
Qed.

Lemma download_file_run (self : nat) (o : minio_file) (c : client)
    (file_name full_name : string) (w : world) :
  heap w !! self = Some o →
  client_ o = Some c →
  download_file self file_name full_name w =
    (match fget_object_reply c (bucket_name o) full_name file_name with
     | Some ex => inl ex
     | None => inr tt
     end,
     seen w [FgetObject (handle c) (bucket_name o) full_name file_name]).
Proof.
  intros Ho Hc. unfold download_file. run. rewrite Ho, Hc. run. rewrite Ho.
  by destruct (fget_object_reply _ _ _ _).
Qed.

(** No operation assigns an attribute: the heap is the same afterwards. *)
Lemma operations_keep_heap (self : nat) (w : world) (a b : string) :
  heap (get_buckets self w).2 = heap w ∧
  heap (upload_file self a b w).2 = heap w ∧
  heap (get_file_list self w).2 = heap w ∧
  heap (download_file self a b w).2 = heap w.
Proof.
  destruct (heap w !! self) as [o|] eqn:Ho;
    [destruct (client_ o) as [c|] eqn:Hc|].
  - rewrite (get_file_list_run _ _ _ _ Ho Hc), (download_file_run _ _ _ _ _ _ Ho Hc).
    unfold get_buckets, upload_file. run. rewrite Ho, Hc. run. rewrite Ho.
    repeat split.
    + by destruct (list_buckets_reply c).
    + by destruct (fput_object_reply _ _ _ _).
    + by destruct (list_objects_reply _ _ _).
  - unfold get_buckets, upload_file, get_file_list, download_file. run.
    by rewrite Ho, Hc.
  - unfold get_buckets, upload_file, get_file_list, download_file. run.
    by rewrite Ho.
Qed.

Lemma HO_known : "HO" ∈ accounts.
Proof. by apply (bool_decide_unpack _). Qed.

(** [main] when the construction of the instance raises. *)
Lemma main_construction_fails (w w1 : world) (ex : exn) :
  new_minio_file "HO" w = (inl ex, w1) → main w = (inl ex, w1).
Proof. intros Hnew. unfold main. unfold bind at 1. by rewrite Hnew. Qed.

(** [main] once the instance exists. *)
Lemma main_after_construction (w w1 : world) (ho : nat) (o : minio_file) (c : client) :
  new_minio_file "HO" w = (inr ho, w1) →
  heap w1 !! ho = Some o →
  client_ o = Some c →
  main w =
    if bool_decide (length (argv w) = 3) then
      match argv w !! 1 with
      | None => (inl (IndexError "list index out of range"), w1)
      | Some src =>
          if is_file w (Pathlib.str_Path src)
          then (inr tt, seen w1 [Print ("Skipping existing file: " +:+ Pathlib.str_Path src)])
          else (match fget_object_reply c (bucket_name o) (Pathlib.str_Path src) src with
                | Some ex => inl ex
                | None => inr tt
                end,
                seen w1 [FgetObject (handle c) (bucket_name o) (Pathlib.str_Path src) src])
      end
    else
      match list_objects_reply c (bucket_name o) true with
      | inl ex =>
          (inl ex,
           seen w1 [Print (String "010" "Listing objects in bucket:");
                    ListObjects (handle c) (bucket_name o) true])
      | inr objs =>
          (inr tt,
           seen w1 (Print (String "010" "Listing objects in bucket:")
                    :: ListObjects (handle c) (bucket_name o) true
                    :: map (λ obj, Print (object_line obj)) objs))
      end.
Proof.
  intros Hnew Ho Hc.
  destruct (new_minio_file_frame "HO" w) as (_ & Hargv & Hfile).
  rewrite Hnew in Hargv, Hfile. cbn [snd] in Hargv, Hfile.
  unfold main. unfold bind at 1. rewrite Hnew.
  unfold bind at 1, read at 1. rewrite Hargv.
  case_bool_decide as Hlen.
  - destruct (argv w !! 1) as [src|]; [|done].
    unfold bind at 1, read at 1. rewrite Hfile.
    destruct (is_file w (Pathlib.str_Path src)); [done|].
    by rewrite (download_file_run _ _ _ _ _ _ Ho Hc).
  - unfold bind at 1, print at 1, act at 1.
    unfold bind at 1.
    rewrite (get_file_list_run ho o c) by done.
    destruct (list_objects_reply c (bucket_name o) true) as [ex|objs].
    + unfold seen, emit. cbn. by rewrite <-app_assoc.
    + unfold ret, seen, emit. cbn. by rewrite <-app_assoc.
Qed.

(** Construction does not look at the arguments of the process. *)
Lemma new_minio_file_with_argv (account : string) (args : list string) (w : world) :
  new_minio_file account (with_argv args w)
  = ((new_minio_file account w).1, with_argv args (new_minio_file account w).2).
Proof.
  destruct (decide (account ∈ accounts)) as [Hin|Hout].
  - rewrite !(new_minio_file_known _ _ Hin). cbn [environ with_argv].
    destruct (environ w !! ("MINIO_" +:+ account +:+ "_ENDPOINT")) as [e|];
      [|done].
    cbv zeta. by destruct (Minio_rejects _ _ _ _).
  - by rewrite !(new_minio_file_unknown _ _ Hout).
Qed.

(** The entry point reads the four variables of account HO and no other. *)
Lemma main_reads_HO (w : world) :
  ∃ rest : list event,
    trace (main w).2 = trace w ++ reads "HO" ++ rest ∧
    Forall (λ ev, ∀ name, ev ≠ Getenv name) rest.
Proof.
  destruct (new_minio_file "HO" w) as [[ex|ho] w1] eqn:Hnew.
  - rewrite (main_construction_fails _ _ _ Hnew).
    rewrite (new_minio_file_known _ _ HO_known) in Hnew.
    destruct (environ w !! ("MINIO_" +:+ "HO" +:+ "_ENDPOINT")) as [e|].
    + cbv zeta in Hnew. destruct (Minio_rejects _ _ _ _); [|done].
      injection Hnew as _ <-. eexists [_]. split; [done|].
      by repeat constructor.
    + injection Hnew as _ <-. exists []. by rewrite app_nil_r.
  - destruct (new_minio_file_ok _ _ _ _ Hnew) as (e & _ & _ & _ & Hw1).
    cbv zeta in Hw1.
    erewrite main_after_construction; [|done|by rewrite Hw1; apply lookup_insert_eq|done].
    cbn [bucket_name handle].
    assert (∀ evs, trace (seen w1 evs) = trace w ++ reads "HO" ++
              MinioCall (Str.replace (Str.replace e "http://" EmptyString)
                           "https://" EmptyString)
                (environ w !! ("MINIO_" +:+ "HO" +:+ "_ACCESS_KEY"))
                (environ w !! ("MINIO_" +:+ "HO" +:+ "_SECRET_KEY"))
                (Str.startswith e "https://") :: evs) as Htr.
    { intros evs. rewrite Hw1. unfold seen, after. cbn [trace].
      by rewrite <-!app_assoc. }
    case_bool_decide.
    + destruct (argv w !! 1) as [src|].
      * destruct (is_file w _); cbn [snd]; rewrite Htr;
          eexists; (split; [done|]); by repeat constructor.
      * cbn [snd]. rewrite <-(seen_nil w1), Htr.
        eexists; (split; [done|]); by repeat constructor.
    + destruct (list_objects_reply _ _ _) as [|objs]; cbn [snd]; rewrite Htr;
        eexists; (split; [done|]).
      * by repeat constructor.
      * do 3 (constructor; [done|]). by apply Forall_fmap, Forall_true.
Qed.

(** C8 (as amended). The listing operation of an instance takes no
    prefix.  It asks the client once for all objects of the instance's
    bucket, recursively; when the library answers with the (finite)
    sequence [objs], it prints one line [<object_name> (<size> bytes)]
    per object, in the order received, and evaluates to [None]:
    last_modified and etag are not used and no sequence is returned. *)
Theorem C8_listing_prints (self : nat) (o : minio_file) (c : client)
    (objs : list Object) (w : world) :
  heap w !! self = Some o →
  client_ o = Some c →
  list_objects_reply c (bucket_name o) true = inr objs →
  get_file_list self w
  = (inr PyNone,
     seen w (ListObjects (handle c) (bucket_name o) true
             :: map (λ obj, Print (object_name obj +:+ " (" +:+ pretty (size obj)
                                   +:+ " bytes)")) objs)).
Proof.
  intros Ho Hc Hobjs. by rewrite (get_file_list_run _ _ _ _ Ho Hc), Hobjs.
Qed.

(** C9. Once the instance for account HO exists: with no positional
    argument the entry point prints the heading and lists the objects
    of the instance's bucket; with two positional arguments it
    downloads the object named by the first into the local path given
    by the first, unless that local file exists already, in which case
    it only reports the skip. *)
Theorem C9_main_lists_or_downloads (w w1 : world) (ho : nat) (o : minio_file)
    (c : client) :
  new_minio_file "HO" w = (inr ho, w1) →
  heap w1 !! ho = Some o →
  client_ o = Some c →
  (∀ prog objs,
     argv w = [prog] →
     list_objects_reply c (bucket_name o) true = inr objs →
     main w
     = (inr tt,
        seen w1 (Print (String "010" "Listing objects in bucket:")
                 :: ListObjects (handle c) (bucket_name o) true
                 :: map (λ obj, Print (object_line obj)) objs))) ∧
  (∀ prog src dst,
     argv w = [prog; src; dst] →
     is_file w (Pathlib.str_Path src) = true →
     main w
     = (inr tt,
        seen w1 [Print ("Skipping existing file: " +:+ Pathlib.str_Path src)])) ∧
  (∀ prog src dst,
     argv w = [prog; src; dst] →
     is_file w (Pathlib.str_Path src) = false →
     main w
     = (match fget_object_reply c (bucket_name o) (Pathlib.str_Path src) src with
        | Some ex => inl ex
        | None => inr tt
        end,
        seen w1 [FgetObject (handle c) (bucket_name o) (Pathlib.str_Path src) src])).
Proof.
  intros Hnew Ho Hc.
  rewrite (main_after_construction _ _ _ _ _ Hnew Ho Hc).
  repeat split.
  - intros prog objs -> ->. done.
  - intros prog src dst -> Hf. cbn. by rewrite Hf.
  - intros prog src dst -> Hf. cbn. by rewrite Hf.
Qed.

(** C10 (as amended). Every run of the entry point reads the four
    variables of the fixed account HO and no other variable, whatever
    its arguments.  In the two-argument form the local destination is
    the first argument as given and the remote object name is the text
    of [Path] of the first argument, which is the first argument itself
    when all its components are non-empty and different from [.]; the
    second argument has no influence on the result or on what the run
    does. *)
Theorem C10_main_fixed_account_first_argument (w : world) :
  (∃ rest : list event,
     trace (main w).2
     = trace w ++
       [Getenv "MINIO_HO_BUCKET"; Getenv "MINIO_HO_ACCESS_KEY";
        Getenv "MINIO_HO_SECRET_KEY"; Getenv "MINIO_HO_ENDPOINT"] ++ rest ∧
     Forall (λ ev, ∀ name, ev ≠ Getenv name) rest) ∧
  (∀ prog src dst,
     argv w = [prog; src; dst] →
     (∀ ho w1 o c,
        new_minio_file "HO" w = (inr ho, w1) →
        heap w1 !! ho = Some o →
        client_ o = Some c →
        is_file w (Pathlib.str_Path src) = false →
        trace (main w).2
        = trace w1 ++
          [FgetObject (handle c) (bucket_name o) (Pathlib.str_Path src) src]) ∧
     (Forall (λ x, Is_true (Pathlib.kept x)) (Str.split "/" src) →
      Pathlib.str_Path src = src) ∧
     (∀ dst',
        (main (with_argv [prog; src; dst'] w)).1 = (main w).1 ∧
        trace (main (with_argv [prog; src; dst'] w)).2 = trace (main w).2)).
Proof.
  split; [apply main_reads_HO|]. intros prog src dst Hargv. split; [|split].
  - intros ho w1 o c Hnew Ho Hc Hf.
    rewrite (main_after_construction _ _ _ _ _ Hnew Ho Hc), Hargv. cbn.
    by rewrite Hf.
  - apply str_Path_normal.
  - intros dst'.
    pose proof (new_minio_file_with_argv "HO" [prog; src; dst'] w) as Hnew'.
    destruct (new_minio_file "HO" w) as [[ex|ho] w1] eqn:Hnew; cbn [fst snd] in Hnew'.
    + by rewrite (main_construction_fails _ _ _ Hnew'),
        (main_construction_fails _ _ _ Hnew).
    + destruct (new_minio_file_ok _ _ _ _ Hnew) as (e & _ & _ & _ & Hw1).
      cbv zeta in Hw1.
      erewrite (main_after_construction (with_argv _ w));
        [|done|by rewrite Hw1; apply lookup_insert_eq|done].
      erewrite (main_after_construction w);
        [|done|by rewrite Hw1; apply lookup_insert_eq|done].
      rewrite Hargv. cbn.
      by destruct (is_file w _).
Qed.

End Operations.

(** ** Further properties of construction *)

Section Isolation.

Context `{lib : MinioLibrary}.

(** The heap after construction: the old one with at most the new
    instance added under a fresh identity. *)
Lemma new_minio_file_heap (account : string) (w : world) :
  heap (new_minio_file account w).2 = heap w ∨
  ∃ o, heap (new_minio_file account w).2 = <[fresh (dom (heap w)) := o]> (heap w).
Proof.
  destruct (decide (account ∈ accounts)) as [Hin|Hout].
  - right. rewrite (new_minio_file_known _ _ Hin).
    destruct (environ w !! _) as [e|]; [|by eexists].
    cbv zeta. destruct (Minio_rejects _ _ _ _); by eexists.
  - left. by rewrite (new_minio_file_unknown _ _ Hout).
Qed.

(** X1. Constructing an instance never changes an instance that
   exists already, whatever the account and whether or not the
   construction succeeds. *)
Theorem construction_keeps_existing_instances (account : string) (w : world)
    (k : nat) (o : minio_file) :
  heap w !! k = Some o →
  heap (new_minio_file account w).2 !! k = Some o.
Proof.
  intros Hk. destruct (new_minio_file_heap account w) as [->|[o' ->]]; [done|].
  rewrite lookup_insert_ne; [done|].
  intros <-. pose proof (is_fresh (dom (heap w))) as Hfresh.
  apply Hfresh, elem_of_dom. by eexists.
Qed.

(** X2. Two constructions that succeed one after the other give two
    different instances with two different client handles, and the
    second leaves the first instance as it was. *)
Theorem successive_constructions_are_distinct (a1 a2 : string) (w w1 w2 : world)
    (s1 s2 : nat) :
  new_minio_file a1 w = (inr s1, w1) →
  new_minio_file a2 w1 = (inr s2, w2) →
  s1 ≠ s2 ∧
  ∃ o1 o2 c1 c2,
    heap w2 !! s1 = Some o1 ∧ heap w1 !! s1 = Some o1 ∧
    heap w2 !! s2 = Some o2 ∧
    client_ o1 = Some c1 ∧ client_ o2 = Some c2 ∧
    handle c1 ≠ handle c2.
Proof.
  intros H1 H2.
  destruct (new_minio_file_ok _ _ _ _ H1) as (e1 & _ & _ & -> & Hw1).
  destruct (new_minio_file_ok _ _ _ _ H2) as (e2 & _ & _ & -> & Hw2).
  cbv zeta in Hw1, Hw2.
  assert (heap w1 !! fresh (dom (heap w)) = Some
            (Instance_ a1 (environ w !! ("MINIO_" +:+ a1 +:+ "_BUCKET"))
               (Some (Client (handles w)
                        (Str.replace (Str.replace e1 "http://" EmptyString)
                           "https://" EmptyString)
                        (environ w !! ("MINIO_" +:+ a1 +:+ "_ACCESS_KEY"))
                        (environ w !! ("MINIO_" +:+ a1 +:+ "_SECRET_KEY"))
                        (Str.startswith e1 "https://"))))) as Ho1.
  { rewrite Hw1. unfold after. cbn [heap]. apply lookup_insert_eq. }
  assert (fresh (dom (heap w)) ≠ fresh (dom (heap w1))) as Hne.
  { intros Heq. pose proof (is_fresh (dom (heap w1))) as Hfresh.
    apply Hfresh. rewrite <-Heq. apply elem_of_dom. by eexists. }
  split; [done|]. eexists _, _, _, _.
  split.
  { rewrite Hw2. unfold after at 1. cbn [heap].
    rewrite lookup_insert_ne by done. exact Ho1. }
  split; [exact Ho1|]. split.
  { rewrite Hw2. unfold after at 1. cbn [heap]. apply lookup_insert_eq. }
  split; [done|]. split; [done|]. cbn [handle].
  rewrite Hw1. unfold after. cbn [handles]. lia.
Qed.

(** X3. The outcome of construction depends on the environment only
    through the four variables of the account: in two worlds that
    agree on them (and may differ on every other variable), both
    constructions raise the same exception, or both succeed with equal
    bucket name and equal host, keys and secure flag of the client. *)
Theorem construction_depends_on_four_variables (account : string) (w1 w2 : world) :
  environ w1 !! ("MINIO_" +:+ account +:+ "_BUCKET")
  = environ w2 !! ("MINIO_" +:+ account +:+ "_BUCKET") →
  environ w1 !! ("MINIO_" +:+ account +:+ "_ACCESS_KEY")
  = environ w2 !! ("MINIO_" +:+ account +:+ "_ACCESS_KEY") →
  environ w1 !! ("MINIO_" +:+ account +:+ "_SECRET_KEY")
  = environ w2 !! ("MINIO_" +:+ account +:+ "_SECRET_KEY") →
  environ w1 !! ("MINIO_" +:+ account +:+ "_ENDPOINT")
  = environ w2 !! ("MINIO_" +:+ account +:+ "_ENDPOINT") →
  (∀ ex, (new_minio_file account w1).1 = inl ex ↔ (new_minio_file account w2).1 = inl ex) ∧
  (∀ s1 s2,
     (new_minio_file account w1).1 = inr s1 →
     (new_minio_file account w2).1 = inr s2 →
     ∃ o1 o2 c1 c2,
       heap (new_minio_file account w1).2 !! s1 = Some o1 ∧
       heap (new_minio_file account w2).2 !! s2 = Some o2 ∧
       client_ o1 = Some c1 ∧ client_ o2 = Some c2 ∧
       bucket_name o1 = bucket_name o2 ∧
       host c1 = host c2 ∧ access_key c1 = access_key c2 ∧
       secret_key c1 = secret_key c2 ∧ secure c1 = secure c2).
Proof.
  intros Hb Ha Hs He.
  destruct (decide (account ∈ accounts)) as [Hin|Hout].
  - rewrite !(new_minio_file_known _ _ Hin), Hb, Ha, Hs, He.
    destruct (environ w2 !! ("MINIO_" +:+ account +:+ "_ENDPOINT")) as [e|];
      [|by split].
    cbv zeta. destruct (Minio_rejects _ _ _ _); [by split|].
    split; [done|]. intros s1 s2 [= <-] [= <-]. unfold after. cbn [snd heap].
    rewrite !lookup_insert_eq. by eexists _, _, _, _.
  - rewrite !(new_minio_file_unknown _ _ Hout). by split.
Qed.

(** X4. Construction contacts no server and prints nothing: all it
    adds to the trace are reads of the environment and at most one
    call of the client constructor, and it leaves the environment, the
    arguments and the file system as they were. *)
Theorem construction_is_local (account : string) (w : world) :
  ∃ evs : list event,
    trace (new_minio_file account w).2 = trace w ++ evs ∧
    Forall (λ ev, is_remote ev = false ∧ is_print ev = false) evs ∧
    length (List.filter (λ ev, negb (is_getenv ev)) evs) ≤ 1 ∧
    environ (new_minio_file account w).2 = environ w ∧
    argv (new_minio_file account w).2 = argv w ∧
    is_file (new_minio_file account w).2 = is_file w.
Proof.
  destruct (new_minio_file_frame account w) as (Henv & Hargv & Hfile).
  destruct (decide (account ∈ accounts)) as [Hin|Hout].
  - rewrite (new_minio_file_known _ _ Hin) in *.
    destruct (environ w !! ("MINIO_" +:+ account +:+ "_ENDPOINT")) as [e|].
    + cbv zeta in *. destruct (Minio_rejects _ _ _ _);
        (eexists; split; [done|]; split; [by repeat constructor|]; split; [|done];
         cbn; lia).
    + eexists; split; [done|]; split; [by repeat constructor|]. split; [|done].
      cbn. lia.
  - rewrite (new_minio_file_unknown _ _ Hout). exists [].
    rewrite app_nil_r. repeat split; [constructor|cbn; lia].
Qed.

(** X5. For every known account whose endpoint variable is unset,
    construction reads all four variables and then stops on the
    attribute error of [None.replace], whatever the other three
    variables hold; no client has been created. *)
Theorem missing_endpoint_raises_attribute_error (account : string) (w : world) :
  account ∈ accounts →
  environ w !! ("MINIO_" +:+ account +:+ "_ENDPOINT") = None →
  (new_minio_file account w).1
  = inl (AttributeError "'NoneType' object has no attribute 'replace'") ∧
  trace (new_minio_file account w).2
  = trace w ++
    [Getenv ("MINIO_" +:+ account +:+ "_BUCKET");
     Getenv ("MINIO_" +:+ account +:+ "_ACCESS_KEY");
     Getenv ("MINIO_" +:+ account +:+ "_SECRET_KEY");
     Getenv ("MINIO_" +:+ account +:+ "_ENDPOINT")] ∧
  handles (new_minio_file account w).2 = handles w.
Proof.
  intros Hin He. rewrite (new_minio_file_known _ _ Hin), He.
  unfold after. cbn. by rewrite Nat.add_0_r.
Qed.

(** X6. For every known account whose endpoint variable is set, an
    exception raised by the client constructor on the arguments built
    from the environment leaves construction unchanged: it is the
    outcome, after the four reads and the one constructor call, and no
    client handle has been used up. *)
Theorem library_rejection_propagates (account : string) (w : world) (e : string)
    (ex : exn) :
  account ∈ accounts →
  environ w !! ("MINIO_" +:+ account +:+ "_ENDPOINT") = Some e →
  Minio_rejects
    (Str.replace (Str.replace e "http://" EmptyString) "https://" EmptyString)
    (environ w !! ("MINIO_" +:+ account +:+ "_ACCESS_KEY"))
    (environ w !! ("MINIO_" +:+ account +:+ "_SECRET_KEY"))
    (Str.startswith e "https://") = Some ex →
  (new_minio_file account w).1 = inl ex ∧
  handles (new_minio_file account w).2 = handles w ∧
  length (trace (new_minio_file account w).2) = length (trace w) + 5.
Proof.
  intros Hin He Hrej. rewrite (new_minio_file_known _ _ Hin), He. cbv zeta.
  rewrite Hrej. unfold after. cbn [fst snd handles trace].
  rewrite Nat.add_0_r, !length_app. by cbn.
Qed.

(** Two different known accounts have no variable in common. *)
Lemma variables_of_accounts_differ (a b f g : string) :
  a ∈ accounts → b ∈ accounts → a ≠ b → f ∈ fields → g ∈ fields →
  "MINIO_" +:+ b +:+ "_" +:+ f ≠ "MINIO_" +:+ a +:+ "_" +:+ g.
Proof.
  unfold accounts, fields. rewrite !elem_of_cons, !elem_of_nil.
  intros Ha Hb Hne Hf Hg.
  destruct_or!; subst; try done; by intros [=].
Qed.

(** X12. The known accounts are configured independently: setting (or
    changing) a variable of another known account changes nothing in
    the construction for this account, neither its outcome nor the
    instance it stores nor what it does. *)
Theorem other_accounts_do_not_interfere (a b f v : string) (w : world) :
  a ∈ accounts → b ∈ accounts → a ≠ b → f ∈ fields →
  let w' := with_environ (<["MINIO_" +:+ b +:+ "_" +:+ f := v]> (environ w)) w in
  (new_minio_file a w').1 = (new_minio_file a w).1 ∧
  heap (new_minio_file a w').2 = heap (new_minio_file a w).2 ∧
  trace (new_minio_file a w').2 = trace (new_minio_file a w).2.
Proof.
  intros Ha Hb Hne Hf w'.
  assert (∀ g, g ∈ fields →
            environ w' !! ("MINIO_" +:+ a +:+ "_" +:+ g)
            = environ w !! ("MINIO_" +:+ a +:+ "_" +:+ g)) as Hlook.
  { intros g Hg. unfold w', with_environ. cbn [environ].
    apply lookup_insert_ne. by apply variables_of_accounts_differ. }
  assert ("BUCKET" ∈ fields ∧ "ACCESS_KEY" ∈ fields ∧ "SECRET_KEY" ∈ fields ∧
          "ENDPOINT" ∈ fields) as (Fb & Fa & Fs & Fe).
  { unfold fields. rewrite !elem_of_cons. tauto. }
  rewrite !(new_minio_file_known _ _ Ha).
  change (environ w' !! ("MINIO_" +:+ a +:+ "_BUCKET"))
    with (environ w' !! ("MINIO_" +:+ a +:+ "_" +:+ "BUCKET")).
  change (environ w' !! ("MINIO_" +:+ a +:+ "_ACCESS_KEY"))
    with (environ w' !! ("MINIO_" +:+ a +:+ "_" +:+ "ACCESS_KEY")).
  change (environ w' !! ("MINIO_" +:+ a +:+ "_SECRET_KEY"))
    with (environ w' !! ("MINIO_" +:+ a +:+ "_" +:+ "SECRET_KEY")).
  change (environ w' !! ("MINIO_" +:+ a +:+ "_ENDPOINT"))
    with (environ w' !! ("MINIO_" +:+ a +:+ "_" +:+ "ENDPOINT")).
  rewrite (Hlook _ Fb), (Hlook _ Fa), (Hlook _ Fs), (Hlook _ Fe).
  change ("MINIO_" +:+ a +:+ "_" +:+ "ENDPOINT") with ("MINIO_" +:+ a +:+ "_ENDPOINT").
  destruct (environ w !! ("MINIO_" +:+ a +:+ "_ENDPOINT")) as [e|]; [|done].
  cbv zeta. by destruct (Minio_rejects _ _ _ _).
Qed.

End Isolation.

(** ** Further properties of the operations and of the entry point *)

Section Delegation.

Context `{lib : MinioLibrary}.

Ltac run :=
  cbv beta iota zeta delta
    [bind ret raise act read emit store bump load check reply getenv print
     the_client str_method env_name after reads seen];
  cbn [environ argv is_file heap handles trace
       account bucket_name client_ handle host access_key secret_key secure].

Lemma upload_file_run (self : nat) (o : minio_file) (c : client)
    (file_name full_name : string) (w : world) :
  heap w !! self = Some o →
  client_ o = Some c →
  upload_file self file_name full_name w =
    (match fput_object_reply c (bucket_name o) full_name file_name with
     | Some ex => inl ex
     | None => inr tt
     end,
     seen w [FputObject (handle c) (bucket_name o) full_name file_name]).
Proof.
  intros Ho Hc. unfold upload_file. run. rewrite Ho, Hc. run. rewrite Ho.
  by destruct (fput_object_reply _ _ _ _).
Qed.

Lemma get_buckets_run (self : nat) (o : minio_file) (c : client) (w : world) :
  heap w !! self = Some o →
  client_ o = Some c →
  get_buckets self w = (list_buckets_reply c, seen w [ListBuckets (handle c)]).
Proof.
  intros Ho Hc. unfold get_buckets. run. rewrite Ho, Hc. run.
  by destruct (list_buckets_reply c).
Qed.

(** An operation called on an identity that holds no instance, or on an
    instance without client, raises without any effect. *)
Lemma operations_without_client (self : nat) (w : world) (a b : string) :
  (∀ o, heap w !! self = Some o → client_ o = None) →
  (get_buckets self w).2 = w ∧ (upload_file self a b w).2 = w ∧
  (get_file_list self w).2 = w ∧ (download_file self a b w).2 = w.
Proof.
  intros Hnone. unfold get_buckets, upload_file, get_file_list, download_file. run.
  destruct (heap w !! self) as [o|] eqn:Ho; [|done].
  by rewrite (Hnone o eq_refl).
Qed.

(** X7. The four operations change nothing in the process but its
    trace: environment, arguments, file-system view, every instance and
    the handle counter are as before, and the events added contain no
    read of the environment and at most one call to the server. *)
Theorem operations_only_add_events (self : nat) (w : world) (a b : string) :
  ∀ w', w' = (get_buckets self w).2 ∨ w' = (upload_file self a b w).2 ∨
        w' = (get_file_list self w).2 ∨ w' = (download_file self a b w).2 →
  ∃ evs : list event,
    w' = seen w evs ∧
    Forall (λ ev, is_getenv ev = false) evs ∧
    length (List.filter is_remote evs) ≤ 1.
Proof.
  intros w' Hw'.
  destruct (heap w !! self) as [o|] eqn:Ho;
    [destruct (client_ o) as [c|] eqn:Hc|].
  - rewrite (get_buckets_run _ _ _ _ Ho Hc), (upload_file_run _ _ _ _ _ _ Ho Hc),
      (get_file_list_run _ _ _ _ Ho Hc), (download_file_run _ _ _ _ _ _ Ho Hc) in Hw'.
    destruct Hw' as [->|[->|[->| ->]]]; cbn [snd].
    + eexists. split; [done|]. split; [by repeat constructor|]. cbn; lia.
    + eexists. split; [done|]. split; [by repeat constructor|]. cbn; lia.
    + destruct (list_objects_reply _ _ _) as [ex|objs]; cbn [snd].
      * eexists. split; [done|]. split; [by repeat constructor|]. cbn; lia.
      * eexists. split; [done|]. split.
        { constructor; [done|]. by apply Forall_fmap, Forall_true. }
        cbn [List.filter is_remote length]. apply le_n_S.
        induction objs as [|obj objs IH]; [done|]. exact IH.
    + eexists. split; [done|]. split; [by repeat constructor|]. cbn; lia.
  - destruct (operations_without_client self w a b) as (H1 & H2 & H3 & H4).
    { intros o' Ho'. congruence. }
    exists []. rewrite seen_nil. split; [|split; [constructor|cbn; lia]].
    destruct Hw' as [->|[->|[->| ->]]]; done.
  - destruct (operations_without_client self w a b) as (H1 & H2 & H3 & H4).
    { intros o' Ho'. congruence. }
    exists []. rewrite seen_nil. split; [|split; [constructor|cbn; lia]].
    destruct Hw' as [->|[->|[->| ->]]]; done.
Qed.

(** X8. What an instance sends to the server is fixed at construction.
    In any later state of the process in which the instance is intact,
    whatever the environment holds by then: [upload_file(file_name,
    full_name)] makes one [fput_object] call and
    [download_file(file_name, full_name)] one [fget_object] call, on the
    client created at construction, for the bucket read from
    MINIO_<account>_BUCKET at construction, with the second argument
    as object name and the first as local path, and the outcome is the
    library's; [get_buckets] returns the library's answer to one
    [list_buckets] call on that client. *)
Theorem operations_use_what_construction_captured (account : string)
    (w w1 w2 : world) (self : nat) (file_name full_name : string) :
  new_minio_file account w = (inr self, w1) →
  heap w2 !! self = heap w1 !! self →
  ∃ c : client,
    handle c = handles w ∧
    access_key c = environ w !! ("MINIO_" +:+ account +:+ "_ACCESS_KEY") ∧
    secret_key c = environ w !! ("MINIO_" +:+ account +:+ "_SECRET_KEY") ∧
    let bucket := environ w !! ("MINIO_" +:+ account +:+ "_BUCKET") in
    upload_file self file_name full_name w2
    = (match fput_object_reply c bucket full_name file_name with
       | Some ex => inl ex
       | None => inr tt
       end,
       seen w2 [FputObject (handles w) bucket full_name file_name]) ∧
    download_file self file_name full_name w2
    = (match fget_object_reply c bucket full_name file_name with
       | Some ex => inl ex
       | None => inr tt
       end,
       seen w2 [FgetObject (handles w) bucket full_name file_name]) ∧
    get_buckets self w2 = (list_buckets_reply c, seen w2 [ListBuckets (handles w)]).
Proof.
  intros Hnew Hsame.
  destruct (new_minio_file_ok _ _ _ _ Hnew) as (e & _ & _ & -> & Hw1).
  cbv zeta in Hw1. rewrite Hw1 in Hsame. unfold after in Hsame.
  cbn [heap] in Hsame. rewrite lookup_insert_eq in Hsame.
  eexists (Client _ _ _ _ _). cbn [handle access_key secret_key].
  do 3 (split; [reflexivity|]). cbv zeta.
  split; [|split].
  - by rewrite (upload_file_run _ _ _ _ _ _ Hsame eq_refl).
  - by rewrite (download_file_run _ _ _ _ _ _ Hsame eq_refl).
  - by rewrite (get_buckets_run _ _ _ _ Hsame eq_refl).
Qed.

(** X9. Once the instance for account HO exists and the library
    returns the complete listing of its bucket: whenever the argument
    vector does not have exactly three entries (one positional
    argument, or three and more, are treated like none) the entry
    point prints the heading, asks once for the objects of the bucket
    and prints one line per object, and its outcome and trace are those
    of the run without positional arguments. *)
Theorem main_lists_unless_two_arguments (w w1 : world) (ho : nat) (o : minio_file)
    (c : client) (objs : list Object) :
  new_minio_file "HO" w = (inr ho, w1) →
  heap w1 !! ho = Some o →
  client_ o = Some c →
  list_objects_reply c (bucket_name o) true = inr objs →
  length (argv w) ≠ 3 →
  main w
  = (inr tt,
     seen w1 (Print (String "010" "Listing objects in bucket:")
              :: ListObjects (handle c) (bucket_name o) true
              :: map (λ obj, Print (object_line obj)) objs)) ∧
  (main w).1 = (main (with_argv (take 1 (argv w)) w)).1 ∧
  trace (main w).2 = trace (main (with_argv (take 1 (argv w)) w)).2.
Proof.
  intros Hnew Ho Hc Hobjs Hlen.
  assert (main w
          = (inr tt,
             seen w1 (Print (String "010" "Listing objects in bucket:")
                      :: ListObjects (handle c) (bucket_name o) true
                      :: map (λ obj, Print (object_line obj)) objs))) as Hmain.
  { rewrite (main_after_construction _ _ _ _ _ Hnew Ho Hc), Hobjs.
    by rewrite bool_decide_eq_false_2. }
  split; [exact Hmain|].
  pose proof (new_minio_file_with_argv "HO" (take 1 (argv w)) w) as Hnew'.
  rewrite Hnew in Hnew'. cbn [fst snd] in Hnew'.
  rewrite Hmain.
  rewrite (main_after_construction (with_argv (take 1 (argv w)) w)
             (with_argv (take 1 (argv w)) w1) ho o c Hnew' Ho Hc).
  rewrite bool_decide_eq_false_2, Hobjs; [done|].
  cbn [argv with_argv]. rewrite length_take. lia.
Qed.

(** X10. When MINIO_HO_ENDPOINT is unset the entry point stops on the
    attribute error of construction, whatever its arguments: it has
    read the four variables and nothing else has happened (nothing is
    printed, no client exists, the server is not contacted). *)
Theorem main_stops_without_endpoint (w : world) :
  environ w !! "MINIO_HO_ENDPOINT" = None →
  (main w).1 = inl (AttributeError "'NoneType' object has no attribute 'replace'") ∧
  trace (main w).2
  = trace w ++
    [Getenv "MINIO_HO_BUCKET"; Getenv "MINIO_HO_ACCESS_KEY";
     Getenv "MINIO_HO_SECRET_KEY"; Getenv "MINIO_HO_ENDPOINT"] ∧
  handles (main w).2 = handles w.
Proof.
  intros He.
  destruct (missing_endpoint_raises_attribute_error "HO" w HO_known He)
    as (Hres & Htrace & Hhandles).
  destruct (new_minio_file "HO" w) as [[ex|ho] w1] eqn:Hnew; [|done].
  cbn [fst snd] in Hres, Htrace, Hhandles. injection Hres as ->.
  by rewrite (main_construction_fails _ _ _ Hnew).
Qed.

(** X11. Whatever the arguments, the environment and the library's
    answers, a run of the entry point never uploads and never
    enumerates buckets, and it calls the server at most once. *)
Theorem main_calls_the_server_at_most_once (w : world) :
  ∃ evs : list event,
    trace (main w).2 = trace w ++ evs ∧
    Forall (λ ev, is_upload_or_buckets ev = false) evs ∧
    length (List.filter is_remote evs) ≤ 1.
Proof.
  destruct (new_minio_file "HO" w) as [[ex|ho] w1] eqn:Hnew.
  - rewrite (main_construction_fails _ _ _ Hnew).
    destruct (construction_is_local "HO" w) as (evs & Htrace & Hloc & _).
    rewrite Hnew in Htrace. exists evs. split; [done|].
    assert (Forall (λ ev, is_remote ev = false) evs) as Hnot.
    { eapply Forall_impl; [exact Hloc|]. by intros ev [? _]. }
    split.
    + eapply Forall_impl; [exact Hnot|]. by intros [].
    + clear -Hnot. induction Hnot as [|ev evs Hev _ IH]; [cbn; lia|].
      cbn [List.filter]. by rewrite Hev.
  - destruct (new_minio_file_ok _ _ _ _ Hnew) as (e & _ & _ & _ & Hw1).
    cbv zeta in Hw1.
    erewrite main_after_construction; [|done|by rewrite Hw1; apply lookup_insert_eq|done].
    cbn [bucket_name handle].
    assert (∀ evs, trace (seen w1 evs) = trace w ++ (reads "HO" ++
              [MinioCall (Str.replace (Str.replace e "http://" EmptyString)
                            "https://" EmptyString)
                 (environ w !! ("MINIO_" +:+ "HO" +:+ "_ACCESS_KEY"))
                 (environ w !! ("MINIO_" +:+ "HO" +:+ "_SECRET_KEY"))
                 (Str.startswith e "https://")]) ++ evs) as Htr.
    { intros evs. rewrite Hw1. unfold seen, after. cbn [trace].
      by rewrite <-!app_assoc. }
    case_bool_decide.
    + destruct (argv w !! 1) as [src|].
      * destruct (is_file w _); cbn [snd]; rewrite Htr;
          (eexists; split; [done|]; split; [by repeat constructor|]; cbn; lia).
      * cbn [snd]. rewrite <-(seen_nil w1), Htr.
        eexists; split; [done|]; split; [by repeat constructor|]; cbn; lia.
    + destruct (list_objects_reply _ _ _) as [|objs]; cbn [snd]; rewrite Htr;
        (eexists; split; [done|]).
      * split; [by repeat constructor|]. cbn; lia.
      * split.
        { do 7 (constructor; [done|]). by apply Forall_fmap, Forall_true. }
        cbn [List.filter is_remote is_getenv length app reads]. apply le_n_S.
        induction objs as [|obj objs IH]; [done|]. exact IH.
Qed.

End Delegation.

(** ** The module run on concrete processes *)

Section Runs.

Import Demo.

Example replace_leftmost_first : Str.replace "aaa" "aa" "b" = "ba".
Proof. reflexivity. Qed.

Example replace_empty_pattern : Str.replace "abc" EmptyString "-" = "-a-b-c-".
Proof. reflexivity. Qed.

Example str_Path_collapses : Pathlib.str_Path "./data//report.csv" = "data/report.csv".
Proof. reflexivity. Qed.

Example str_Path_root : Pathlib.str_Path "/tmp/x/" = "/tmp/x".
Proof. reflexivity. Qed.

Example str_Path_empty : Pathlib.str_Path EmptyString = ".".
Proof. reflexivity. Qed.

(** The run of the backward-compatibility test: account HO, all four
    variables set. *)
Example construct_HO :
  (new_minio_file "HO" ho_world).1 = inr 0 ∧
  heap (new_minio_file "HO" ho_world).2 !! 0 = Some ho_instance.
Proof. split; reflexivity. Qed.



(** C2, the code at a failing input: with MINIO_HO_BUCKET unset,
    construction succeeds and stores [None] as bucket name; with no
    variable set at all it stops on the attribute error of
    [None.replace], which names no variable. *)
Lemma C2_missing_variables_not_reported :
  (new_minio_file "HO" (process ho_env_no_bucket ["minio-file"] [])).1 = inr 0 ∧
  heap (new_minio_file "HO" (process ho_env_no_bucket ["minio-file"] [])).2 !! 0
  = Some (Instance_ "HO" None (Some ho_client)) ∧
  (new_minio_file "HO" (process [] ["minio-file"] [])).1
  = inl (AttributeError "'NoneType' object has no attribute 'replace'").
Proof. repeat split; reflexivity. Qed.

Lemma C3_witness :
  ("UNKNOWN" ∉ accounts) ∧
  new_minio_file "UNKNOWN" ho_world
  = (inl (TypeError "exceptions must derive from BaseException"), ho_world) ∧
  trace (new_minio_file "UNKNOWN" ho_world).2 = trace ho_world.
Proof.
  assert ("UNKNOWN" ∉ accounts) as H by (apply (bool_decide_unpack _); exact I).
  exact (conj H (C3_unknown_account_rejected "UNKNOWN" ho_world H)).
Defined.

(** C4, the claim refuted: for the endpoint
    [https://minio.example.com/http://mirror] the constructor receives
    [minio.example.com/mirror], whereas removing only the leading
    prefix gives [minio.example.com/http://mirror]. *)
Lemma C4_counterexample :
  trace (new_minio_file "HO" (process ho_env_nested ["minio-file"] [])).2
  = [Getenv "MINIO_HO_BUCKET"; Getenv "MINIO_HO_ACCESS_KEY";
     Getenv "MINIO_HO_SECRET_KEY"; Getenv "MINIO_HO_ENDPOINT";
     MinioCall "minio.example.com/mirror" (Some "test-key") (Some "test-secret") true]
  ∧ Spec.strip_scheme nested_endpoint = "minio.example.com/http://mirror"
  ∧ "minio.example.com/mirror" ≠ Spec.strip_scheme nested_endpoint.
Proof. repeat split; [reflexivity..|discriminate]. Qed.

Lemma C4_witness :
  "HO" ∈ accounts ∧
  environ ho_world !! "MINIO_HO_ENDPOINT" = Some "https://minio.example.com" ∧
  Str.contains (Spec.strip_scheme "https://minio.example.com") "http://" = false ∧
  Str.contains (Spec.strip_scheme "https://minio.example.com") "https://" = false ∧
  ∃ (url : string) (ak sk : option string),
    trace (new_minio_file "HO" ho_world).2
    = reads "HO" ++ [MinioCall url ak sk true] ∧
    url = "minio.example.com".
Proof.
  assert ("HO" ∈ accounts) as Hin by (apply (bool_decide_unpack _); exact I).
  assert (environ ho_world !! "MINIO_HO_ENDPOINT" = Some "https://minio.example.com")
    as He by reflexivity.
  assert (Str.contains (Spec.strip_scheme "https://minio.example.com") "http://" = false)
    as H1 by reflexivity.
  assert (Str.contains (Spec.strip_scheme "https://minio.example.com") "https://" = false)
    as H2 by reflexivity.
  do 4 (split; [assumption|]).
  destruct (C4_endpoint_normalisation "HO" ho_world _ Hin He)
    as (url & ak & sk & sec & Htrace & _ & Hsec & Hstrip).
  exists url, ak, sk. rewrite Htrace, Hsec. split; [reflexivity|].
  exact (Hstrip H1 H2).
Defined.

(** C5, the claim refuted: all four variables of account HO are set,
    the endpoint being [https://minio.example.com/http://mirror]; the
    constructor is called with the host [minio.example.com/mirror],
    refuses it, and construction raises instead of returning an
    instance. *)
Lemma C5_counterexample :
  environ nested_world !! "MINIO_HO_BUCKET" = Some "test-bucket" ∧
  environ nested_world !! "MINIO_HO_ACCESS_KEY" = Some "test-key" ∧
  environ nested_world !! "MINIO_HO_SECRET_KEY" = Some "test-secret" ∧
  environ nested_world !! "MINIO_HO_ENDPOINT" = Some nested_endpoint ∧
  (@new_minio_file path_checking_library "HO" nested_world).1
  = inl (LibraryError "path in endpoint is not allowed").
Proof. repeat split; reflexivity. Qed.

Lemma C5_witness :
  "HO" ∈ accounts ∧
  environ ho_world !! "MINIO_HO_BUCKET" = Some "test-bucket" ∧
  environ ho_world !! "MINIO_HO_ACCESS_KEY" = Some "test-key" ∧
  environ ho_world !! "MINIO_HO_SECRET_KEY" = Some "test-secret" ∧
  environ ho_world !! "MINIO_HO_ENDPOINT" = Some "https://minio.example.com" ∧
  Minio_rejects "minio.example.com" (Some "test-key") (Some "test-secret") true = None ∧
  trace (new_minio_file "HO" ho_world).2
  = [Getenv "MINIO_HO_BUCKET"; Getenv "MINIO_HO_ACCESS_KEY";
     Getenv "MINIO_HO_SECRET_KEY"; Getenv "MINIO_HO_ENDPOINT";
     MinioCall "minio.example.com" (Some "test-key") (Some "test-secret") true] ∧
  ∃ (self : nat) (w' : world),
    new_minio_file "HO" ho_world = (inr self, w') ∧
    heap w' !! self = Some ho_instance.
Proof.
  assert ("HO" ∈ accounts) as Hin by (apply (bool_decide_unpack _); exact I).
  assert (Minio_rejects "minio.example.com" (Some "test-key") (Some "test-secret") true
          = None) as Hok by reflexivity.
  do 6 (split; [first [assumption | reflexivity]|]).
  destruct (C5_named_account_resolution_or_refusal "HO" ho_world "test-bucket"
              "test-key" "test-secret" "https://minio.example.com" Hin eq_refl
              eq_refl eq_refl eq_refl) as (Htrace & Hacc & _).
  exact (conj Htrace (Hacc Hok)).
Defined.

(** C6, the code at a failing input: with MINIO_HO_BUCKET set to the
    empty string, construction succeeds and the instance's bucket name
    is the empty string. *)
Lemma C6_empty_bucket_name_accepted :
  (new_minio_file "HO" (process ho_env_empty_bucket ["minio-file"] [])).1 = inr 0 ∧
  heap (new_minio_file "HO" (process ho_env_empty_bucket ["minio-file"] [])).2 !! 0
  = Some (Instance_ "HO" (Some EmptyString) (Some ho_client)).
Proof. split; reflexivity. Qed.

(** Two constructions one after the other: the second instance and its
    client are new objects, bucket name and secure flag are the same. *)
Lemma C7_witness :
  environ ho_world = environ (constructed ho_world) ∧
  new_minio_file "HO" ho_world = (inr 0, constructed ho_world) ∧
  new_minio_file "HO" (constructed ho_world) = (inr 1, constructed_twice ho_world) ∧
  ∃ o1 o2 c1 c2,
    heap (constructed ho_world) !! 0 = Some o1 ∧
    heap (constructed_twice ho_world) !! 1 = Some o2 ∧
    client_ o1 = Some c1 ∧ client_ o2 = Some c2 ∧
    bucket_name o1 = bucket_name o2 ∧ secure c1 = secure c2.
Proof.
  assert (environ ho_world = environ (constructed ho_world)) as H by reflexivity.
  assert (new_minio_file "HO" ho_world = (inr 0, constructed ho_world)) as E1
    by reflexivity.
  assert (new_minio_file "HO" (constructed ho_world)
          = (inr 1, constructed_twice ho_world)) as E2 by reflexivity.
  do 3 (split; [assumption|]).
  pose proof (C7_same_inputs_same_connection "HO" ho_world (constructed ho_world) H)
    as Hsame.
  rewrite E1, E2 in Hsame. exact Hsame.
Defined.

(** C8, the claim refuted: in a bucket holding two objects the listing
    operation evaluates to [None], not to the sequence of their
    records. *)
Lemma C8_counterexample :
  list_objects_reply ho_client (Some "test-bucket") true = inr listing ∧
  (get_file_list 0 (constructed ho_world)).1 = inr PyNone ∧
  (get_file_list 0 (constructed ho_world)).1 ≠ inr (PySeq listing).
Proof. repeat split; [reflexivity..|discriminate]. Qed.

Lemma C8_witness :
  heap (constructed ho_world) !! 0 = Some ho_instance ∧
  client_ ho_instance = Some ho_client ∧
  list_objects_reply ho_client (bucket_name ho_instance) true = inr listing ∧
  get_file_list 0 (constructed ho_world)
  = (inr PyNone,
     seen (constructed ho_world)
       [ListObjects 0 (Some "test-bucket") true;
        Print "a.txt (3 bytes)"; Print "dir/b.csv (120 bytes)"]).
Proof.
  do 3 (split; [reflexivity|]).
  exact (C8_listing_prints 0 ho_instance ho_client listing (constructed ho_world)
           eq_refl eq_refl eq_refl).
Defined.

Lemma C9_witness :
  new_minio_file "HO" ho_world = (inr 0, constructed ho_world) ∧
  main ho_world
  = (inr tt,
     seen (constructed ho_world)
       [Print (String "010" "Listing objects in bucket:");
        ListObjects 0 (Some "test-bucket") true;
        Print "a.txt (3 bytes)"; Print "dir/b.csv (120 bytes)"]) ∧
  main skip_world
  = (inr tt, seen (constructed skip_world) [Print "Skipping existing file: a.txt"]) ∧
  main fetch_world
  = (inr tt,
     seen (constructed fetch_world)
       [FgetObject 0 (Some "test-bucket") "a.txt" "./a.txt"]).
Proof.
  split; [reflexivity|]. split; [|split].
  - exact (proj1 (C9_main_lists_or_downloads ho_world (constructed ho_world) 0
                    ho_instance ho_client eq_refl eq_refl eq_refl)
             "minio-file" listing eq_refl eq_refl).
  - exact (proj1 (proj2 (C9_main_lists_or_downloads skip_world (constructed skip_world)
                           0 ho_instance ho_client eq_refl eq_refl eq_refl))
             "minio-file" "a.txt" "ignored.txt" eq_refl eq_refl).
  - exact (proj2 (proj2 (C9_main_lists_or_downloads fetch_world (constructed fetch_world)
                           0 ho_instance ho_client eq_refl eq_refl eq_refl))
             "minio-file" "./a.txt" "ignored.txt" eq_refl eq_refl).
Defined.

(** C10, the claim refuted: started with first argument [./a.txt] the
    tool asks for the remote object [a.txt]; the remote object name is
    not the first argument. *)
Lemma C10_counterexample :
  argv fetch_world = ["minio-file"; "./a.txt"; "ignored.txt"] ∧
  trace (main fetch_world).2
  = [Getenv "MINIO_HO_BUCKET"; Getenv "MINIO_HO_ACCESS_KEY";
     Getenv "MINIO_HO_SECRET_KEY"; Getenv "MINIO_HO_ENDPOINT";
     MinioCall "minio.example.com" (Some "test-key") (Some "test-secret") true;
     FgetObject 0 (Some "test-bucket") "a.txt" "./a.txt"] ∧
  "a.txt" ≠ "./a.txt".
Proof. repeat split; [reflexivity..|discriminate]. Qed.

Lemma C10_witness :
  argv skip_world = ["minio-file"; "a.txt"; "ignored.txt"] ∧
  Forall (λ x, Is_true (Pathlib.kept x)) (Str.split "/" "a.txt") ∧
  Pathlib.str_Path "a.txt" = "a.txt" ∧
  (main (with_argv ["minio-file"; "a.txt"; "other.txt"] skip_world)).1
  = (main skip_world).1.
Proof.
  assert (Forall (λ x, Is_true (Pathlib.kept x)) (Str.split "/" "a.txt")) as Hk
    by (by repeat constructor).
  destruct (proj2 (C10_main_fixed_account_first_argument skip_world)
              "minio-file" "a.txt" "ignored.txt" eq_refl) as (_ & Hnorm & Hdst).
  split; [reflexivity|]. split; [exact Hk|]. split; [exact (Hnorm Hk)|].
  exact (proj1 (Hdst "other.txt")).
Defined.

End Runs.

(** ** The further properties on concrete processes *)

Section FurtherRuns.

Import Demo.

Lemma construction_keeps_existing_instances_witness :
  heap (constructed ho_world) !! 0 = Some ho_instance ∧
  heap (new_minio_file "HO" (constructed ho_world)).2 !! 0 = Some ho_instance.
Proof.
  assert (heap (constructed ho_world) !! 0 = Some ho_instance) as H by reflexivity.
  exact (conj H (construction_keeps_existing_instances "HO" (constructed ho_world)
                   0 ho_instance H)).
Defined.

Lemma successive_constructions_are_distinct_witness :
  new_minio_file "HO" ho_world = (inr 0, constructed ho_world) ∧
  new_minio_file "HO" (constructed ho_world) = (inr 1, constructed_twice ho_world) ∧
  0 ≠ 1 ∧
  ∃ o1 o2 c1 c2,
    heap (constructed_twice ho_world) !! 0 = Some o1 ∧
    heap (constructed ho_world) !! 0 = Some o1 ∧
    heap (constructed_twice ho_world) !! 1 = Some o2 ∧
    client_ o1 = Some c1 ∧ client_ o2 = Some c2 ∧
    handle c1 ≠ handle c2.
Proof.
  assert (new_minio_file "HO" ho_world = (inr 0, constructed ho_world)) as E1
    by reflexivity.
  assert (new_minio_file "HO" (constructed ho_world)
          = (inr 1, constructed_twice ho_world)) as E2 by reflexivity.
  do 2 (split; [assumption|]).
  exact (successive_constructions_are_distinct "HO" "HO" ho_world
           (constructed ho_world) (constructed_twice ho_world) 0 1 E1 E2).
Defined.

Lemma construction_depends_on_four_variables_witness :
  environ ho_world !! "MINIO_HO_BUCKET" = environ ho_world_extra !! "MINIO_HO_BUCKET" ∧
  environ ho_world !! "MINIO_HO_ACCESS_KEY"
  = environ ho_world_extra !! "MINIO_HO_ACCESS_KEY" ∧
  environ ho_world !! "MINIO_HO_SECRET_KEY"
  = environ ho_world_extra !! "MINIO_HO_SECRET_KEY" ∧
  environ ho_world !! "MINIO_HO_ENDPOINT"
  = environ ho_world_extra !! "MINIO_HO_ENDPOINT" ∧
  environ ho_world ≠ environ ho_world_extra ∧
  ∀ ex, (new_minio_file "HO" ho_world).1 = inl ex
        ↔ (new_minio_file "HO" ho_world_extra).1 = inl ex.
Proof.
  assert (environ ho_world !! "MINIO_HO_BUCKET"
          = environ ho_world_extra !! "MINIO_HO_BUCKET") as Hb by reflexivity.
  assert (environ ho_world !! "MINIO_HO_ACCESS_KEY"
          = environ ho_world_extra !! "MINIO_HO_ACCESS_KEY") as Ha by reflexivity.
  assert (environ ho_world !! "MINIO_HO_SECRET_KEY"
          = environ ho_world_extra !! "MINIO_HO_SECRET_KEY") as Hs by reflexivity.
  assert (environ ho_world !! "MINIO_HO_ENDPOINT"
          = environ ho_world_extra !! "MINIO_HO_ENDPOINT") as He by reflexivity.
  do 4 (split; [assumption|]). split.
  { intros Heq. apply (f_equal (λ m, m !! "MINIO_WO_BUCKET")) in Heq. discriminate Heq. }
  exact (proj1 (construction_depends_on_four_variables "HO" ho_world ho_world_extra
                  Hb Ha Hs He)).
Defined.

Lemma missing_endpoint_raises_attribute_error_witness :
  "HO" ∈ accounts ∧
  environ bare_world !! "MINIO_HO_ENDPOINT" = None ∧
  (new_minio_file "HO" bare_world).1
  = inl (AttributeError "'NoneType' object has no attribute 'replace'").
Proof.
  assert ("HO" ∈ accounts) as Hin by (apply (bool_decide_unpack _); exact I).
  assert (environ bare_world !! "MINIO_HO_ENDPOINT" = None) as He by reflexivity.
  do 2 (split; [assumption|]).
  exact (proj1 (missing_endpoint_raises_attribute_error "HO" bare_world Hin He)).
Defined.

Lemma library_rejection_propagates_witness :
  "HO" ∈ accounts ∧
  environ schemeless_world !! "MINIO_HO_ENDPOINT" = Some "https://" ∧
  Minio_rejects EmptyString None None true = Some (LibraryError "invalid hostname") ∧
  (new_minio_file "HO" schemeless_world).1 = inl (LibraryError "invalid hostname") ∧
  handles (new_minio_file "HO" schemeless_world).2 = handles schemeless_world.
Proof.
  assert ("HO" ∈ accounts) as Hin by (apply (bool_decide_unpack _); exact I).
  assert (environ schemeless_world !! "MINIO_HO_ENDPOINT" = Some "https://") as He
    by reflexivity.
  assert (Minio_rejects EmptyString None None true
          = Some (LibraryError "invalid hostname")) as Hrej by reflexivity.
  do 3 (split; [assumption|]).
  destruct (library_rejection_propagates "HO" schemeless_world "https://"
              (LibraryError "invalid hostname") Hin He Hrej) as (H1 & H2 & _).
  exact (conj H1 H2).
Defined.

Lemma operations_only_add_events_witness :
  ∃ evs : list event,
    (upload_file 0 "local.txt" "remote.txt" (constructed ho_world)).2
    = seen (constructed ho_world) evs ∧
    Forall (λ ev, is_getenv ev = false) evs ∧
    length (List.filter is_remote evs) ≤ 1.
Proof.
  exact (operations_only_add_events 0 (constructed ho_world) "local.txt" "remote.txt"
           _ (or_intror (or_introl eq_refl))).
Defined.

Lemma operations_use_what_construction_captured_witness :
  new_minio_file "HO" ho_world = (inr 0, constructed ho_world) ∧
  heap (constructed_twice ho_world) !! 0 = heap (constructed ho_world) !! 0 ∧
  ∃ c : client,
    handle c = 0 ∧
    upload_file 0 "local.txt" "remote.txt" (constructed_twice ho_world)
    = (match fput_object_reply c (Some "test-bucket") "remote.txt" "local.txt" with
       | Some ex => inl ex
       | None => inr tt
       end,
       seen (constructed_twice ho_world)
         [FputObject 0 (Some "test-bucket") "remote.txt" "local.txt"]).
Proof.
  assert (new_minio_file "HO" ho_world = (inr 0, constructed ho_world)) as E1
    by reflexivity.
  assert (heap (constructed_twice ho_world) !! 0 = heap (constructed ho_world) !! 0)
    as Hsame by reflexivity.
  do 2 (split; [assumption|]).
  destruct (operations_use_what_construction_captured "HO" ho_world
              (constructed ho_world) (constructed_twice ho_world) 0
              "local.txt" "remote.txt" E1 Hsame)
    as (c & Hh & _ & _ & Hup & _).
  exists c. exact (conj Hh Hup).
Defined.

Lemma main_lists_unless_two_arguments_witness :
  new_minio_file "HO" one_argument_world = (inr 0, constructed one_argument_world) ∧
  list_objects_reply ho_client (bucket_name ho_instance) true = inr listing ∧
  length (argv one_argument_world) ≠ 3 ∧
  main one_argument_world
  = (inr tt,
     seen (constructed one_argument_world)
       (Print (String "010" "Listing objects in bucket:")
        :: ListObjects (handle ho_client) (bucket_name ho_instance) true
        :: map (λ obj, Print (object_line obj)) listing)).
Proof.
  assert (new_minio_file "HO" one_argument_world
          = (inr 0, constructed one_argument_world)) as E1 by reflexivity.
  assert (list_objects_reply ho_client (bucket_name ho_instance) true = inr listing)
    as Hobjs by reflexivity.
  assert (length (argv one_argument_world) ≠ 3) as Hlen by discriminate.
  do 3 (split; [assumption|]).
  exact (proj1 (main_lists_unless_two_arguments one_argument_world
                  (constructed one_argument_world) 0 ho_instance ho_client listing
                  E1 eq_refl eq_refl Hobjs Hlen)).
Defined.

Lemma main_stops_without_endpoint_witness :
  environ bare_world !! "MINIO_HO_ENDPOINT" = None ∧
  (main bare_world).1
  = inl (AttributeError "'NoneType' object has no attribute 'replace'").
Proof.
  assert (environ bare_world !! "MINIO_HO_ENDPOINT" = None) as He by reflexivity.
  exact (conj He (proj1 (main_stops_without_endpoint bare_world He))).
Defined.

Lemma other_accounts_do_not_interfere_witness :
  "HO" ∈ accounts ∧ "WO" ∈ accounts ∧ "HO" ≠ "WO" ∧ "BUCKET" ∈ fields ∧
  (new_minio_file "HO"
     (with_environ (<["MINIO_WO_BUCKET" := "wo-bucket"]> (environ ho_world)) ho_world)).1
  = (new_minio_file "HO" ho_world).1.
Proof.
  assert ("HO" ∈ accounts) as Ha by (apply (bool_decide_unpack _); exact I).
  assert ("WO" ∈ accounts) as Hb by (apply (bool_decide_unpack _); exact I).
  assert ("HO" ≠ "WO") as Hne by discriminate.
  assert ("BUCKET" ∈ fields) as Hf by (apply (bool_decide_unpack _); exact I).
  do 4 (split; [assumption|]).
  exact (proj1 (other_accounts_do_not_interfere "HO" "WO" "BUCKET" "wo-bucket"
                  ho_world Ha Hb Hne Hf)).
Defined.

End FurtherRuns.
